(** * aibuddy: the command lifecycle engine

    A shallow embedding of [aibuddy.py]: the text operations the program
    applies to model responses and command output, the command executor
    with its confirmation gate, the completion client with the server
    supervision in front of it, and the two flows that repair a failed
    command ([fix] and [generate --execute]).

    Python strings are modelled as [string], a character being a code
    point below 256.  Everything the program does to the outside world
    (terminal, HTTP, file system, subprocesses) is an [event]; what the
    outside world answers is read from a [World], and may depend on all
    that happened before.

    What is left out: the colours of [click.style]; the text of the
    launcher script, of which the values put into it are kept; the history
    file, of which the entry appended is kept; [click.confirm] ending in
    an abort instead of an answer.  The configuration is what
    [load_config] returns. *)

From Stdlib Require Import String Ascii List ZArith Lia Bool Arith.
From Stdlib Require Import DecimalString.
Import ListNotations.

Local Open Scope list_scope.
Local Open Scope string_scope.

(** ** Python string operations *)

Module Py.

Definition chr (n : nat) : ascii := ascii_of_nat n.
Definition str1 (c : ascii) : string := String c EmptyString.

Definition nl_char : ascii := chr 10.
Definition nl : string := str1 nl_char.
Definition backtick : ascii := chr 96.
Definition hash : ascii := chr 35.

(** [str.isspace] on one character, for code points below 256. *)
Definition isspace (c : ascii) : bool :=
  let n := nat_of_ascii c in
  (((9 <=? n) && (n <=? 13)) || ((28 <=? n) && (n <=? 32))
   || (n =? 133) || (n =? 160))%nat.

(** [str.lower] on one character: A-Z and the Latin-1 capitals
    (all of 192..222 but the multiplication sign 215). *)
Definition lower_char (c : ascii) : ascii :=
  let n := nat_of_ascii c in
  if (((65 <=? n) && (n <=? 90))
      || ((192 <=? n) && (n <=? 222) && negb (n =? 215)))%nat
  then ascii_of_nat (n + 32) else c.

Fixpoint lower (s : string) : string :=
  match s with
  | EmptyString => EmptyString
  | String c s' => String (lower_char c) (lower s')
  end.

(** [s.startswith(p)] *)
Fixpoint startswith (p s : string) : bool :=
  match p with
  | EmptyString => true
  | String a p' =>
      match s with
      | EmptyString => false
      | String b s' => Ascii.eqb a b && startswith p' s'
      end
  end.

(** [w in s]: [w] occurs in [s] as a substring. *)
Fixpoint contains (w s : string) : bool :=
  startswith w s ||
  match s with
  | EmptyString => false
  | String _ s' => contains w s'
  end.

Fixpoint rev_str (acc s : string) : string :=
  match s with
  | EmptyString => acc
  | String c s' => rev_str (String c acc) s'
  end.

(** [s.endswith(p)] *)
Definition endswith (p s : string) : bool :=
  startswith (rev_str EmptyString p) (rev_str EmptyString s).

Fixpoint lstrip (s : string) : string :=
  match s with
  | EmptyString => EmptyString
  | String c s' => if isspace c then lstrip s' else s
  end.

Fixpoint rstrip (s : string) : string :=
  match s with
  | EmptyString => EmptyString
  | String c s' =>
      match rstrip s' with
      | EmptyString => if isspace c then EmptyString else str1 c
      | r => String c r
      end
  end.

(** [s.strip()] *)
Definition strip (s : string) : string := rstrip (lstrip s).

(** Truth value of a string: non-empty. *)
Definition truthy (s : string) : bool :=
  match s with EmptyString => false | _ => true end.

(** [s.split("\n")]: always at least one piece. *)
Fixpoint split_nl (s : string) : list string :=
  match s with
  | EmptyString => [EmptyString]
  | String c s' =>
      if Ascii.eqb c nl_char then EmptyString :: split_nl s'
      else match split_nl s' with
           | h :: t => String c h :: t
           | [] => [str1 c]
           end
  end.

(** [sep.join(l)] *)
Fixpoint join (sep : string) (l : list string) : string :=
  match l with
  | [] => EmptyString
  | [x] => x
  | x :: t => x ++ sep ++ join sep t
  end.

Fixpoint drop (n : nat) (s : string) : string :=
  match n, s with
  | O, _ => s
  | S _, EmptyString => EmptyString
  | S k, String _ s' => drop k s'
  end.

(** [s.replace(old, new)] for a non-empty [old] (every call in the program
    passes a constant one): occurrences are found from the left and do not
    overlap.  [fuel] bounds the number of steps; [length s] is enough. *)
Fixpoint replace_fuel (fuel : nat) (old new s : string) : string :=
  match fuel with
  | O => s
  | S f =>
      if startswith old s
      then new ++ replace_fuel f old new (drop (String.length old) s)
      else match s with
           | EmptyString => EmptyString
           | String c s' => String c (replace_fuel f old new s')
           end
  end.

Definition replace (old new s : string) : string :=
  replace_fuel (String.length s) old new s.

(** [l[1:-1]] *)
Definition slice_1_m1 {A} (l : list A) : list A := removelast (tl l).

(** [str(n)] for an integer. *)
Definition str_of_Z (z : Z) : string := NilZero.string_of_int (Z.to_int z).

(** Only white space (used to state what [strip] removes). *)
Fixpoint all_space (s : string) : bool :=
  match s with
  | EmptyString => true
  | String c s' => isspace c && all_space s'
  end.

End Py.

(** ** The outside world *)

(** What [subprocess.run(..., capture_output=True)] gives: a completed
    process, or an exception raised before any result exists. *)
Inductive run_result :=
| Completed (stdout stderr : string) (returncode : Z)
| Raised (msg : string).

(** What reading [result["choices"][0]["message"]["content"]] off a
    response body gives: the text (a string), or an exception. *)
Inductive body :=
| Content (text : string)
| Malformed (err : string).

(** What [requests.post] gives: a response with its status code and body,
    or a transport fault (DNS, refused connection, timeout). *)
Inductive http_reply :=
| Reply (status : Z) (b : body)
| Fault (err : string).

(** The values the launcher script is generated from. *)
Record launcher := {
  l_log_dir : string;
  l_model : string;
  l_port : Z;
  l_threads : Z;
  l_ctx : Z;
  l_host : string
}.

Inductive event :=
| Echo (text : string)                     (* click.echo *)
| Get (url : string) (r : option Z)        (* requests.get: status, or a fault *)
| PostChat (url prompt : string) (r : http_reply)
| Sleep                                    (* time.sleep(1) *)
| Exists (path : string) (b : bool)        (* os.path.exists *)
| WriteLauncher (path : string) (l : launcher)
| Chmod (path : string)
| Popen (path : string)
| Confirm (text : string) (a : bool)       (* click.confirm *)
| Run (command : string) (r : run_result)  (* subprocess.run(shell=True) *)
| SaveHistory (description command : string).

(** The configuration as [load_config] returns it: a JSON object whose
    keys may be missing. *)
Record Config := {
  model_path : option string;
  server_host : option string;
  server_port : option Z;
  context_length : option Z;
  thread_count : option Z
}.

(** [config.get(key, default)] *)
Definition get {A} (field : option A) (default : A) : A :=
  match field with Some v => v | None => default end.

(** The answers of the environment.  Each may depend on everything that
    happened before (the history of events). *)
Record World := {
  config_dir : string;
  load_config : Config;
  health : list event -> string -> option Z;
  chat : list event -> string -> string -> http_reply;
  path_exists : list event -> string -> bool;
  answer : list event -> string -> bool;
  shell : list event -> string -> run_result
}.

(** ** Computations: a history in, a result and the new events out *)

Inductive outcome (A : Type) :=
| Ret (a : A)
| Exit (code : Z).                         (* sys.exit *)
Arguments Ret {A} a.
Arguments Exit {A} code.

Definition M (A : Type) : Type := list event -> outcome A * list event.

Definition ret {A} (a : A) : M A := fun _ => (Ret a, []).

Definition bind {A B} (m : M A) (f : A -> M B) : M B :=
  fun h =>
    match m h with
    | (Ret a, d) => let (r, d') := f a (h ++ d)%list in (r, (d ++ d')%list)
    | (Exit c, d) => (Exit c, d)
    end.

Definition emit (e : event) : M unit := fun _ => (Ret tt, [e]).

Definition ask {A} (q : list event -> A) (e : A -> event) : M A :=
  fun h => (Ret (q h), [e (q h)]).

Definition sys_exit {A} (code : Z) : M A := fun _ => (Exit code, []).

Notation "x <- m ;; k" := (bind m (fun x => k))
  (at level 61, m at next level, right associativity).
Notation "m ;;; k" := (bind m (fun _ => k))
  (at level 61, right associativity).

(** The events of a computation started on history [h], and its result. *)
Definition events {A} (m : M A) (h : list event) : list event := snd (m h).
Definition result {A} (m : M A) (h : list event) : outcome A := fst (m h).

(** ** The program *)

Import Py.

Definition MODEL_PATH : string :=
  "/home/katana/projects/linux/aibuddy/agentica-org_DeepScaleR-1.5B-Preview-Q8_0.gguf".

Definition danger_words : list string :=
  ["rm"; "sudo"; "dd"; "mkfs"; "> /dev"; "chmod"; "reboot"; "shutdown"].

(** The test of [execute_command]:
    [any(danger_word in command for danger_word in [...])]. *)
Definition is_dangerous (command : string) : bool :=
  existsb (fun danger_word => contains danger_word command) danger_words.

Definition confirm_text : string :=
  "This command may modify your system. Proceed?".
Definition cancelled_text : string := "Command execution cancelled.".

(** The output [execute_command] builds from a completed process. *)
Definition combined_output (stdout stderr : string) : string :=
  if truthy stderr then stdout ++ nl ++ "Errors:" ++ nl ++ stderr else stdout.

(** The test [generate] applies to the output of a command. *)
Definition has_error (output : string) : bool :=
  contains "error" (lower output) || contains "not found" (lower output).

(** The test [fix] applies to the output of a command. *)
Definition has_error_fix (output : string) : bool :=
  contains "error" (lower output) || contains "not found" (lower output)
  || contains "command not found" (lower output).

(** The prompt of [fix_command_errors]. *)
Definition repair_prompt (error_text original_command : string) : string :=
  nl ++ "The following Linux command failed:" ++ nl ++ nl
  ++ "```" ++ nl ++ original_command ++ nl ++ "```" ++ nl ++ nl
  ++ "With this error:" ++ nl
  ++ "```" ++ nl ++ error_text ++ nl ++ "```" ++ nl ++ nl
  ++ "Please provide a corrected version of the command that will work, and briefly explain what was wrong."
  ++ nl.

(** The prompt of [generate]. *)
Definition generate_prompt (description : string) : string :=
  "Generate a Linux bash command that will: " ++ description ++ nl
  ++ "Provide ONLY the command with NO explanations.".

(** One turn of the loop of [fix_command_errors] over the lines of the
    response; the state is [(in_code_block, command_lines)]. *)
Definition scan_line (st : bool * list string) (line : string)
  : bool * list string :=
  let (in_code_block, command_lines) := st in
  if startswith "```" (strip line) then (negb in_code_block, command_lines)
  else if in_code_block && truthy (strip line) && negb (startswith "#" line)
       then (in_code_block, (command_lines ++ [line])%list)
       else (in_code_block, command_lines).

(** The [command_lines] that [fix_command_errors] collects. *)
Definition command_lines (response : string) : list string :=
  snd (fold_left scan_line (split_nl response) (false, [])).

(** The candidate of [fix_command_errors]: [command_lines[0]], if any. *)
Definition fixed_command (response : string) : option string :=
  match command_lines response with
  | [] => None
  | line :: _ => Some line
  end.

(** The command [generate] makes of a (non-empty) response. *)
Definition generated_command (response : string) : string :=
  let command := strip response in
  let command :=
    if startswith "```" command && endswith "```" command
    then join nl (slice_1_m1 (split_nl command))
    else command in
  strip (replace "```" EmptyString
           (replace "```shell" EmptyString
              (replace "```bash" EmptyString command))).

Section Program.

Variable W : World.

Definition echo (text : string) : M unit := emit (Echo text).

Definition confirm (text : string) : M bool :=
  ask (fun h => answer W h text) (Confirm text).

Definition health_url (host : string) (port : Z) : string :=
  "http://" ++ host ++ ":" ++ str_of_Z port ++ "/health".
Definition chat_url (host : string) (port : Z) : string :=
  "http://" ++ host ++ ":" ++ str_of_Z port ++ "/v1/chat/completions".

Definition is_server_running (host : string) (port : Z) : M bool :=
  r <- ask (fun h => health W h (health_url host port))
           (Get (health_url host port)) ;;
  ret (match r with
       | Some status => (status =? 200)%Z
       | None => false
       end).

Definition launcher_path : string := config_dir W ++ "/start_server.sh".

Definition start_server (config : Config) : M unit :=
  let model := get (model_path config) MODEL_PATH in
  let port := get (server_port config) 8080%Z in
  present <- ask (fun h => path_exists W h model) (Exists model) ;;
  if negb present
  then echo ("Error: Model not found at " ++ model) ;;; sys_exit 1%Z
  else
    emit (WriteLauncher launcher_path
            {| l_log_dir := config_dir W;
               l_model := model;
               l_port := port;
               l_threads := get (thread_count config) 4%Z;
               l_ctx := get (context_length config) 4096%Z;
               l_host := get (server_host config) "127.0.0.1" |}) ;;;
    emit (Chmod launcher_path) ;;;
    emit (Popen launcher_path) ;;;
    echo ("Server starting in background. Log: " ++ config_dir W
          ++ "/server.log").

(** The loop [for _ in range(n): ... else: ...] of [call_llm_api]:
    [true] when it left through [break]. *)
Fixpoint wait_for_server (n : nat) (host : string) (port : Z) : M bool :=
  match n with
  | O => ret false
  | S k =>
      up <- is_server_running host port ;;
      if up then ret true
      else echo "Waiting for server to start..." ;;;
           emit Sleep ;;;
           wait_for_server k host port
  end.

(** The request of [call_llm_api], once the server answers. *)
Definition post_chat (host : string) (port : Z) (prompt : string)
  : M (option string) :=
  r <- ask (fun h => chat W h (chat_url host port) prompt)
           (PostChat (chat_url host port) prompt) ;;
  match r with
  | Reply status b =>
      if (status =? 200)%Z
      then match b with
           | Content text => ret (Some text)
           | Malformed err => echo ("Error calling API: " ++ err) ;;; ret None
           end
      else echo ("Error: API returned status code " ++ str_of_Z status) ;;;
           ret None
  | Fault err => echo ("Error calling API: " ++ err) ;;; ret None
  end.

Definition call_llm_api (prompt : string) (config : Config)
  : M (option string) :=
  let host := get (server_host config) "localhost" in
  let port := get (server_port config) 8080%Z in
  up <- is_server_running host port ;;
  if negb up
  then
    echo "Server is not running. Starting server..." ;;;
    start_server config ;;;
    started <- wait_for_server 10 host port ;;
    if started then post_chat host port prompt
    else echo "Failed to start server." ;;; ret None
  else post_chat host port prompt.

Definition execute_command (command : string) : M string :=
  echo (nl ++ "Executing: " ++ command ++ nl) ;;;
  proceed <- (if is_dangerous command then confirm confirm_text
              else ret true) ;;
  if negb proceed then ret cancelled_text
  else
    r <- ask (fun h => shell W h command) (Run command) ;;
    match r with
    | Completed stdout stderr _ => ret (combined_output stdout stderr)
    | Raised msg => ret ("Error executing command: " ++ msg)
    end.

Definition fix_command_errors (error_text original_command : string)
  : M (option string) :=
  let config := load_config W in
  response <- call_llm_api (repair_prompt error_text original_command) config ;;
  match response with
  | Some response =>
      if truthy response then
        echo (nl ++ response ++ nl) ;;;
        match fixed_command response with
        | Some fixed =>
            go <- confirm ("Would you like to execute the fixed command? ["
                           ++ fixed ++ "]") ;;
            if go then out <- execute_command fixed ;; ret (Some out)
            else ret None
        | None => ret None
        end
      else ret None
  | None => ret None
  end.

Definition generate (description : string) (execute : bool) : M unit :=
  let config := load_config W in
  echo "Generating command..." ;;;
  response <- call_llm_api (generate_prompt description) config ;;
  match response with
  | Some response =>
      if truthy response then
        let command := generated_command response in
        echo (nl ++ "Generated Command:") ;;;
        echo (command ++ nl) ;;;
        emit (SaveHistory description command) ;;;
        if execute then
          output <- execute_command command ;;
          echo (nl ++ "Output:") ;;;
          echo output ;;;
          if has_error output then
            go <- confirm "Would you like me to try to fix any errors in this command?" ;;
            if go then fix_command_errors output command ;;; ret tt
            else ret tt
          else ret tt
        else ret tt
      else echo "Failed to generate command."
  | None => echo "Failed to generate command."
  end.

(** The [fix] subcommand ([fix] is a keyword of Rocq). *)
Definition fix_cmd (command : list string) : M unit :=
  let cmd_str := join " " command in
  echo "Attempting to execute command first to see if it has errors..." ;;;
  output <- execute_command cmd_str ;;
  if has_error_fix output then
    echo "Command had errors:" ;;;
    echo output ;;;
    echo (nl ++ "Attempting to fix the command...") ;;;
    fixed_output <- fix_command_errors output cmd_str ;;
    match fixed_output with
    | Some out =>
        if truthy out then
          echo (nl ++ "Output from fixed command:") ;;; echo out
        else ret tt
    | None => ret tt
    end
  else
    echo "Command executed successfully:" ;;;
    echo output.

End Program.


(** ** Notions the properties are stated with *)

(** The words of a command line: its pieces between blanks. *)
Fixpoint words (s : string) : list string :=
  match s with
  | EmptyString => [EmptyString]
  | String c s' =>
      if Ascii.eqb c " "%char then EmptyString :: words s'
      else match words s' with
           | h :: t => String c h :: t
           | [] => [str1 c]
           end
  end.


(** The command has one of the [danger_words] somewhere in its text. *)
Definition mentions_danger_word (command : string) : Prop :=
  exists w a b, In w danger_words /\ command = a ++ w ++ b.

(** What [execute_command] returns once the process has been started. *)
Definition output_of (r : run_result) : string :=
  match r with
  | Completed stdout stderr _ => combined_output stdout stderr
  | Raised msg => "Error executing command: " ++ msg
  end.

(** *** Fenced blocks *)

(** A response wrapped in one fenced block: the opening fence with its
    language tag, the body, the closing fence. *)
Definition fenced (tag body : string) : string :=
  "```" ++ tag ++ nl ++ body ++ nl ++ "```".

(** A line that opens or closes a fenced block. *)
Definition is_fence (line : string) : bool :=
  startswith "```" (strip line).

(** A line that is not blank and does not begin with [#]. *)
Definition is_command (line : string) : bool :=
  truthy (strip line) && negb (startswith "#" line).

(** A comment of the shell: after the indentation, the line begins with
    [#]. *)
Definition is_comment (line : string) : bool :=
  startswith "#" (lstrip line).

(** A line that is neither blank nor a comment. *)
Definition is_plain_command (line : string) : bool :=
  truthy (strip line) && negb (is_comment line).

Definition no_fence (lines : list string) : bool :=
  forallb (fun line => negb (is_fence line)) lines.

(** The lines that stand inside fenced blocks, read from a point outside
    any block ([outside_fence]) or inside one ([inside_fence]).  A block
    that is never closed runs to the end. *)
Fixpoint outside_fence (lines : list string) : list string :=
  match lines with
  | [] => []
  | line :: rest =>
      if is_fence line then inside_fence rest else outside_fence rest
  end
with inside_fence (lines : list string) : list string :=
  match lines with
  | [] => []
  | line :: rest =>
      if is_fence line then outside_fence rest else line :: inside_fence rest
  end.

(** The first message of [execute_command]. *)
Definition executing (command : string) : event :=
  Echo (nl ++ "Executing: " ++ command ++ nl).

(** What [execute_command] does to a command it holds for dangerous, on
    history [h], once the user answered [ans]. *)
Definition gated_run (W : World) (h : list event) (command : string)
           (ans : bool) : list event :=
  executing command :: Confirm confirm_text ans ::
  (if ans
   then [Run command
           (shell W (h ++ [executing command; Confirm confirm_text true])
                  command)]
   else []).

(** The [host] and [port] of [call_llm_api]. *)
Definition api_host (config : Config) : string :=
  get (server_host config) "localhost".
Definition api_port (config : Config) : Z :=
  get (server_port config) 8080%Z.

(** The health probe of [call_llm_api] and the request that follows it. *)
Definition probe_url (config : Config) : string :=
  health_url (api_host config) (api_port config).
Definition completions_url (config : Config) : string :=
  chat_url (api_host config) (api_port config).

(** *** Counting events *)

Definition is_run (e : event) : bool :=
  match e with Run _ _ => true | _ => false end.

Definition is_post (e : event) : bool :=
  match e with PostChat _ _ _ => true | _ => false end.

(** A request to the model that carries the prompt of
    [fix_command_errors]. *)
Definition is_repair_post (e : event) : bool :=
  match e with
  | PostChat _ prompt _ =>
      startswith (nl ++ "The following Linux command failed:") prompt
  | _ => false
  end.

(** The steps by which [start_server] puts a server process in place. *)
Definition starts_server (e : event) : bool :=
  match e with
  | WriteLauncher _ _ | Chmod _ | Popen _ => true
  | _ => false
  end.

Definition is_probe (e : event) : bool :=
  match e with Get _ _ => true | _ => false end.

Definition count (p : event -> bool) (l : list event) : nat :=
  List.length (filter p l).

(** On every history, computation [m] emits at most [n] events of kind [p]. *)
Definition emits_at_most {A} (p : event -> bool) (n : nat) (m : M A) : Prop :=
  forall h, count p (events m h) <= n.

(** The question by which [generate] offers a repair. *)
Definition fix_question : string :=
  "Would you like me to try to fix any errors in this command?".

Definition asks_to_fix (e : event) : bool :=
  match e with
  | Confirm q _ => String.eqb q fix_question
  | _ => false
  end.

(** The history on which [generate] runs the command it made of
    [response], when it started on [h] and the request to the model left
    the events [sent]. *)
Definition generated_history (h : list event) (description response : string)
           (sent : list event) : list event :=
  h ++ Echo "Generating command..." :: sent
    ++ [Echo (nl ++ "Generated Command:");
        Echo (generated_command response ++ nl);
        SaveHistory description (generated_command response)].

(** The history on which [fix] runs its command. *)
Definition fix_history (h : list event) : list event :=
  h ++ [Echo "Attempting to execute command first to see if it has errors..."].

(** *** A world in which every repair goes as far as it can *)

(** The server answers every probe. *)
Definition always_healthy (W : World) : Prop :=
  forall h u, health W h u = Some 200%Z.

(** The model always answers with a text that holds a candidate. *)
Definition always_offers (W : World) : Prop :=
  forall h u p, exists response fixed,
    chat W h u p = Reply 200 (Content response)
    /\ fixed_command response = Some fixed.

(** The user says yes to every question. *)
Definition always_yes (W : World) : Prop :=
  forall h q, answer W h q = true.

(** Every command fails, by the test the program applies to its output. *)
Definition always_fails (W : World) : Prop :=
  forall h c, has_error (output_of (shell W h c)) = true.

(** ** Sample worlds *)

Definition no_config : Config :=
  {| model_path := None; server_host := None; server_port := None;
     context_length := None; thread_count := None |}.

(** A healthy server whose model always answers [reply]; every question is
    answered [yes]; every command gives [r]. *)
Definition steady_world (reply : http_reply) (yes : bool) (r : run_result)
  : World :=
  {| config_dir := "/home/user/.config/aibuddy";
     load_config := no_config;
     health := fun _ _ => Some 200%Z;
     chat := fun _ _ _ => reply;
     path_exists := fun _ _ => true;
     answer := fun _ _ => yes;
     shell := fun _ _ => r |}.

(** The user declines everything. *)
Definition declining_world : World :=
  steady_world (Fault "unused") false (Completed "unused" EmptyString 0).

(** The user accepts, and the command prints the text of a cancellation. *)
Definition printing_world : World :=
  steady_world (Fault "unused") true (Completed cancelled_text EmptyString 0).

(** The server answers every request with status 500. *)
Definition failing_server_world : World :=
  steady_world (Reply 500 (Content "Internal Server Error")) true
               (Raised "unused").

(** The server is healthy but the request does not get through. *)
Definition unreachable_world : World :=
  steady_world (Fault "Connection refused") true (Raised "unused").

(** Everything works but the commands: the model proposes
    [cat file.txt], the user agrees, and every command fails. *)
Definition stubborn_reply : string :=
  "```" ++ nl ++ "cat file.txt" ++ nl ++ "```".

Definition stubborn_world : World :=
  steady_world (Reply 200 (Content stubborn_reply)) true
               (Completed EmptyString "sh: 1: catt: not found" 127).

(** Every command ends with status 1 and prints nothing, as [false] does. *)
Definition silent_failure_world : World :=
  steady_world (Fault "unused") true (Completed EmptyString EmptyString 1).

(** A response whose fenced block opens with an indented comment, one whose
    block holds nothing but such a comment, and a world in which the model
    gives the first of them. *)
Definition indented_comment_reply : string :=
  "```bash" ++ nl ++ "  # list the files" ++ nl ++ "ls" ++ nl ++ "```".

Definition comment_only_reply : string :=
  "```" ++ nl ++ "  # nothing to run" ++ nl ++ "```".

Definition commenting_world : World :=
  steady_world (Reply 200 (Content indented_comment_reply)) true
               (Completed EmptyString EmptyString 0).


(** ** The other subcommands *)

(** The prompt of [explain]. *)
Definition explain_prompt (cmd_str : string) : string :=
  "Explain what this Linux command does in detail:" ++ nl
  ++ "    " ++ nl
  ++ cmd_str ++ nl ++ nl
  ++ "Break down each part of the command, any options/flags used, and potential side effects or security considerations.".

Definition restart_question : string :=
  "Would you like to restart the server?".
Definition start_question : string := "Would you like to start the server?".


Section Commands.

Variable W : World.

Definition explain (command : list string) : M unit :=
  let config := load_config W in
  let cmd_str := join " " command in
  echo "Analyzing command..." ;;;
  response <- call_llm_api W (explain_prompt cmd_str) config ;;
  match response with
  | Some response =>
      if truthy response then echo (nl ++ response)
      else echo "Failed to analyze command."
  | None => echo "Failed to analyze command."
  end.

Definition server : M unit :=
  let config := load_config W in
  let host := get (server_host config) "localhost" in
  let port := get (server_port config) 8080%Z in
  up <- is_server_running W host port ;;
  if up then
    echo ("Server is running at http://" ++ host ++ ":" ++ str_of_Z port) ;;;
    go <- confirm W restart_question ;;
    if go then echo "Restarting server..." ;;; start_server W config
    else ret tt
  else
    echo "Server is not running." ;;;
    go <- confirm W start_question ;;
    if go then start_server W config else ret tt.

End Commands.

(** ** The files under the configuration directory *)

Definition DEFAULT_CONFIG : Config :=
  {| model_path := Some MODEL_PATH;
     server_host := Some "localhost";
     server_port := Some 8080%Z;
     context_length := Some 4096%Z;
     thread_count := Some 4%Z |}.

(** The configuration file and the history file are modelled by what
    [json.load] reads from them; [None] is a file that does not exist.
    Time stamps are values of a type [Time] left open. *)
Module Store.

Section Files.

Context {Time : Type}.

Record HistoryEntry := {
  description : string;
  command : string;
  timestamp : Time
}.

Record Files := {
  config_file : option Config;
  history_file : option (list HistoryEntry)
}.

(** [l[-n:]] for a positive [n] *)
Definition last_n {A} (n : nat) (l : list A) : list A :=
  skipn (List.length l - n) l.

Definition ensure_config_exists (fs : Files) : Files :=
  {| config_file :=
       match config_file fs with
       | Some c => Some c
       | None => Some DEFAULT_CONFIG
       end;
     history_file :=
       match history_file fs with
       | Some h => Some h
       | None => Some []
       end |}.

(** [load_config]: the files afterwards and what was read; [None] would be
    the exception of [open] on a missing file. *)
Definition load_config (fs : Files) : Files * option Config :=
  let fs := ensure_config_exists fs in
  (fs, config_file fs).

(** What [save_history] makes of the list it read. *)
Definition appended (history : list HistoryEntry)
           (description command : string) (now : Time) : list HistoryEntry :=
  let history :=
    (history ++ [{| description := description; command := command;
                    timestamp := now |}])%list in
  if (100 <? List.length history)%nat then last_n 100 history else history.

(** [save_history]: [None] is the exception of [open] on a missing
    history file. *)
Definition save_history (description command : string) (now : Time)
           (fs : Files) : option Files :=
  match history_file fs with
  | None => None
  | Some history =>
      Some {| config_file := config_file fs;
              history_file :=
                Some (appended history description command now) |}
  end.

(** The quotation mark. *)
Definition dq : string := str1 (chr 34).

(** The loop of [history] over [enumerate(entries, i)]. *)
Fixpoint history_lines (i : nat) (entries : list HistoryEntry)
  : list string :=
  match entries with
  | [] => []
  | entry :: rest =>
      (str_of_Z (Z.of_nat i) ++ ". " ++ dq ++ description entry ++ dq)
      :: ("   " ++ command entry)
      :: EmptyString
      :: history_lines (S i) rest
  end.

(** The [history] subcommand: the lines it prints, or [None] for the
    exception of [open] on a missing history file. *)
Definition history (fs : Files) : option (list string) :=
  match history_file fs with
  | None => None
  | Some [] => Some ["No command history found."]
  | Some entries =>
      Some ("Command History:" :: history_lines 1 (last_n 10 entries))
  end.

(** What the user types at the prompts of [config]; [None] is the empty
    line that takes the default shown. *)
Record Answers := {
  update : bool;
  typed_model_path : option string;
  typed_server_host : option string;
  typed_server_port : option Z;
  typed_thread_count : option Z;
  typed_context_length : option Z
}.

(** The [new_config] of [config]. *)
Definition new_config (current : Config) (typed : Answers) : Config :=
  {| model_path :=
       Some (get (typed_model_path typed) (get (model_path current) MODEL_PATH));
     server_host :=
       Some (get (typed_server_host typed)
                 (get (server_host current) "localhost"));
     server_port :=
       Some (get (typed_server_port typed)
                 (get (server_port current) 8080%Z));
     context_length :=
       Some (get (typed_context_length typed)
                 (get (context_length current) 4096%Z));
     thread_count :=
       Some (get (typed_thread_count typed)
                 (get (thread_count current) 4%Z)) |}.

(** The [config] subcommand, as far as the files go (the listing of the
    current configuration is not modelled). *)
Definition config (typed : Answers) (fs : Files) : option Files :=
  match load_config fs with
  | (fs, Some current) =>
      if update typed
      then Some {| config_file := Some (new_config current typed);
                   history_file := history_file fs |}
      else Some fs
  | (_, None) => None
  end.

(** The history file after the events of a run: every [SaveHistory] is a
    call of [save_history], stamped by [clock] with the number of events
    before it. *)
Fixpoint replay (clock : nat -> Time) (n : nat) (trace : list event)
         (history : list HistoryEntry) : list HistoryEntry :=
  match trace with
  | [] => history
  | SaveHistory d c :: rest =>
      replay clock (S n) rest (appended history d c (clock n))
  | _ :: rest => replay clock (S n) rest history
  end.

End Files.

Arguments HistoryEntry : clear implicits.
Arguments Files : clear implicits.

(** Sample files, with the count of seconds as time stamp. *)
Definition pwd_entry : HistoryEntry nat :=
  {| description := "where am I"; command := "pwd"; timestamp := 3 |}.

Definition sample_files : Files nat :=
  {| config_file := None; history_file := Some [pwd_entry] |}.

Definition no_files : Files nat :=
  {| config_file := None; history_file := None |}.

Definition empty_history_files : Files nat :=
  {| config_file := None; history_file := Some [] |}.

(** The user only presses enter. *)
Definition all_defaults (update : bool) : Answers :=
  {| update := update;
     typed_model_path := None; typed_server_host := None;
     typed_server_port := None; typed_thread_count := None;
     typed_context_length := None |}.

End Store.

(** The values [start_server] puts into the launcher script. *)
Definition launcher_of (W : World) (config : Config) : launcher :=
  {| l_log_dir := config_dir W;
     l_model := get (model_path config) MODEL_PATH;
     l_port := get (server_port config) 8080%Z;
     l_threads := get (thread_count config) 4%Z;
     l_ctx := get (context_length config) 4096%Z;
     l_host := get (server_host config) "127.0.0.1" |}.

(** What [start_server] does when the model file is there. *)
Definition launch (W : World) (config : Config) : list event :=
  [Exists (get (model_path config) MODEL_PATH) true;
   WriteLauncher (launcher_path W) (launcher_of W config);
   Chmod (launcher_path W);
   Popen (launcher_path W);
   Echo ("Server starting in background. Log: " ++ config_dir W
         ++ "/server.log")].

(** What [start_server] does when it is not. *)
Definition no_model (config : Config) : list event :=
  [Exists (get (model_path config) MODEL_PATH) false;
   Echo ("Error: Model not found at " ++ get (model_path config) MODEL_PATH)].

(** The events of [call_llm_api] up to the start of the server, when the
    first probe fails. *)
Definition cold_start (W : World) (config : Config) (h : list event)
  : list event :=
  [Get (probe_url config) (health W h (probe_url config));
   Echo "Server is not running. Starting server..."].

(** The events of [generate] between the answer [response] of the model
    and the execution. *)
Definition recorded (description response : string) : list event :=
  [Echo (nl ++ "Generated Command:");
   Echo (generated_command response ++ nl);
   SaveHistory description (generated_command response)].

(** The first message of [generate]. *)
Definition generating : event := Echo "Generating command...".

(** *** More kinds of events *)

Definition is_sleep (e : event) : bool :=
  match e with Sleep => true | _ => false end.

Definition is_confirm (e : event) : bool :=
  match e with Confirm _ _ => true | _ => false end.

Definition is_save (e : event) : bool :=
  match e with SaveHistory _ _ => true | _ => false end.

Definition is_write (e : event) : bool :=
  match e with WriteLauncher _ _ => true | _ => false end.

(** A configuration in which no key is missing. *)
Definition complete (config : Config) : Prop :=
  model_path config <> None /\ server_host config <> None
  /\ server_port config <> None /\ context_length config <> None
  /\ thread_count config <> None.

(** The server never answers a probe with 200. *)
Definition never_healthy (W : World) : Prop :=
  forall h u, health W h u <> Some 200%Z.

(** *** More sample worlds *)

(** No server answers and none can be started. *)
Definition dead_world (model_there : bool) : World :=
  {| config_dir := "/home/user/.config/aibuddy";
     load_config := no_config;
     health := fun _ _ => None;
     chat := fun _ _ _ => Fault "unused";
     path_exists := fun _ _ => model_there;
     answer := fun _ _ => true;
     shell := fun _ _ => Raised "unused" |}.

(** The server answers the third probe and those after it. *)
Definition slow_world : World :=
  {| config_dir := "/home/user/.config/aibuddy";
     load_config := no_config;
     health := fun h _ => if (2 <=? count is_probe h)%nat then Some 200%Z
                          else None;
     chat := fun _ _ _ => Reply 200 (Content "ls");
     path_exists := fun _ _ => true;
     answer := fun _ _ => true;
     shell := fun _ _ => Raised "embedded null byte" |}.

(** The model answers in prose, without a fenced block. *)
Definition prose_reply : string := "Use cat file.txt instead.".

Definition prose_world : World :=
  steady_world (Reply 200 (Content prose_reply)) true (Raised "unused").

(** Every command succeeds and prints a line that mentions errors. *)
Definition chatty_world : World :=
  steady_world (Fault "Connection refused") true
               (Completed "0 errors, 0 warnings" EmptyString 0).
(** ** Facts about the string operations *)

Module PyFacts.

Lemma str_app_nil_r (s : string) : s ++ EmptyString = s.
Proof. induction s as [|c s IH]; simpl; [reflexivity | now rewrite IH]. Qed.

Lemma str_app_assoc (a b c : string) : (a ++ b) ++ c = a ++ b ++ c.
Proof. induction a as [|x a IH]; simpl; [reflexivity | now rewrite IH]. Qed.

Lemma str_length_app (a b : string) :
  String.length (a ++ b) = String.length a + String.length b.
Proof. induction a as [|x a IH]; simpl; [reflexivity | now rewrite IH]. Qed.

Lemma lower_app (a b : string) : lower (a ++ b) = lower a ++ lower b.
Proof. induction a as [|x a IH]; simpl; [reflexivity | now rewrite IH]. Qed.

(** *** Prefixes *)

Lemma startswith_app (p t : string) : startswith p (p ++ t) = true.
Proof.
  induction p as [|x p IH]; simpl; [reflexivity |].
  now rewrite Ascii.eqb_refl.
Qed.

Lemma startswith_inv (p s : string) :
  startswith p s = true -> exists t, s = p ++ t.
Proof.
  revert s; induction p as [|x p IH]; intros s H; simpl in *.
  - now exists s.
  - destruct s as [|y s]; [discriminate |].
    apply andb_prop in H; destruct H as [Hxy Hps].
    apply Ascii.eqb_eq in Hxy; subst y.
    destruct (IH _ Hps) as [t ->]. now exists t.
Qed.

Lemma startswith_iff (p s : string) :
  startswith p s = true <-> exists t, s = p ++ t.
Proof.
  split; [apply startswith_inv |].
  intros [t ->]; apply startswith_app.
Qed.

Lemma startswith_app_l (p q s : string) :
  startswith (p ++ q) s = true -> startswith p s = true.
Proof.
  intros H. apply startswith_inv in H. destruct H as [t ->].
  rewrite str_app_assoc. apply startswith_app.
Qed.

(** *** Substrings *)

Lemma contains_eq (w s : string) :
  contains w s =
  startswith w s
  || match s with EmptyString => false | String _ s' => contains w s' end.
Proof. destruct s; reflexivity. Qed.

Lemma contains_app (w a b : string) : contains w (a ++ w ++ b) = true.
Proof.
  induction a as [|x a IH]; simpl.
  - rewrite contains_eq, startswith_app. reflexivity.
  - rewrite IH. apply orb_true_r.
Qed.

Lemma contains_inv (w s : string) :
  contains w s = true -> exists a b, s = a ++ w ++ b.
Proof.
  induction s as [|x s IH]; intros H; rewrite contains_eq in H;
    apply orb_prop in H; destruct H as [H | H].
  - apply startswith_inv in H. destruct H as [t Ht].
    exists EmptyString, t. exact Ht.
  - discriminate.
  - apply startswith_inv in H. destruct H as [t Ht].
    exists EmptyString, t. exact Ht.
  - destruct (IH H) as (a & b & ->). now exists (String x a), b.
Qed.

(** [w in s] is exactly: [s] is some text, then [w], then some text. *)
Lemma contains_iff (w s : string) :
  contains w s = true <-> exists a b, s = a ++ w ++ b.
Proof.
  split; [apply contains_inv |].
  intros (a & b & ->); apply contains_app.
Qed.

Lemma contains_sub (w a s b : string) :
  contains w s = true -> contains w (a ++ s ++ b) = true.
Proof.
  intros H. apply contains_inv in H. destruct H as (x & y & ->).
  replace (a ++ (x ++ w ++ y) ++ b) with ((a ++ x) ++ w ++ (y ++ b)).
  - apply contains_app.
  - now rewrite !str_app_assoc.
Qed.

Lemma contains_app_r (w a s : string) :
  contains w s = true -> contains w (a ++ s) = true.
Proof.
  intros H. rewrite <- (str_app_nil_r s). now apply contains_sub.
Qed.

Lemma contains_app_l (w s b : string) :
  contains w s = true -> contains w (s ++ b) = true.
Proof.
  intros H. change (s ++ b) with (EmptyString ++ s ++ b).
  now apply contains_sub.
Qed.

Lemma contains_inner (u w v s : string) :
  contains (u ++ w ++ v) s = true -> contains w s = true.
Proof.
  intros H. apply contains_inv in H. destruct H as (a & b & ->).
  replace (a ++ (u ++ w ++ v) ++ b) with ((a ++ u) ++ w ++ (v ++ b)).
  - apply contains_app.
  - now rewrite !str_app_assoc.
Qed.

Lemma contains_longer (w v s : string) :
  contains (w ++ v) s = true -> contains w s = true.
Proof. apply (contains_inner EmptyString). Qed.

Lemma contains_false_app_inv (w a b : string) :
  contains w (a ++ b) = false ->
  contains w a = false /\ contains w b = false.
Proof.
  intros H; split.
  - destruct (contains w a) eqn:E; [| reflexivity].
    now rewrite (contains_app_l _ _ b E) in H.
  - destruct (contains w b) eqn:E; [| reflexivity].
    now rewrite (contains_app_r _ a _ E) in H.
Qed.

(** *** Stripping *)

Lemma lstrip_space (ws s : string) :
  all_space ws = true -> lstrip (ws ++ s) = lstrip s.
Proof.
  induction ws as [|c ws IH]; simpl; intros H; [reflexivity |].
  apply andb_prop in H; destruct H as [Hc Hws].
  rewrite Hc. now apply IH.
Qed.

Lemma rstrip_space (ws : string) :
  all_space ws = true -> rstrip ws = EmptyString.
Proof.
  induction ws as [|c ws IH]; simpl; intros H; [reflexivity |].
  apply andb_prop in H; destruct H as [Hc Hws].
  now rewrite (IH Hws), Hc.
Qed.

Lemma rstrip_app_space (a ws : string) :
  all_space ws = true -> rstrip (a ++ ws) = rstrip a.
Proof.
  intros H. induction a as [|c a IH]; simpl.
  - now apply rstrip_space.
  - now rewrite IH.
Qed.

Lemma rstrip_last (a : string) (c : ascii) :
  isspace c = false -> rstrip (a ++ str1 c) = a ++ str1 c.
Proof.
  intros Hc. induction a as [|x a IH]; simpl.
  - now rewrite Hc.
  - rewrite IH. destruct a; reflexivity.
Qed.

Lemma lstrip_suffix (s : string) : exists a, s = a ++ lstrip s.
Proof.
  induction s as [|c s [a IH]]; simpl.
  - now exists EmptyString.
  - destruct (isspace c).
    + exists (String c a). simpl. now rewrite <- IH.
    + now exists EmptyString.
Qed.

Lemma rstrip_prefix (s : string) : exists b, s = rstrip s ++ b.
Proof.
  induction s as [|c s [b IH]]; simpl.
  - now exists EmptyString.
  - destruct (rstrip s) as [|y r] eqn:E.
    + destruct (isspace c).
      * now exists (String c s).
      * exists s. reflexivity.
    + exists b. simpl in *. now rewrite <- IH.
Qed.

(** What [strip] returns is a piece of its argument. *)
Lemma strip_sub (s : string) : exists a b, s = a ++ strip s ++ b.
Proof.
  unfold strip. destruct (lstrip_suffix s) as [a Ha].
  destruct (rstrip_prefix (lstrip s)) as [b Hb].
  exists a, b. now rewrite <- Hb.
Qed.

Lemma contains_strip (w s : string) :
  contains w s = false -> contains w (strip s) = false.
Proof.
  intros H. destruct (strip_sub s) as (a & b & E).
  destruct (contains w (strip s)) eqn:C; [| reflexivity].
  rewrite E in H. now rewrite (contains_sub w a _ b C) in H.
Qed.

(** Stripping text that starts and ends with a visible character and is
    surrounded by white space gives the text back. *)
Lemma strip_wrapped (ws1 ws2 mid : string) (x y : ascii) :
  all_space ws1 = true -> all_space ws2 = true ->
  isspace x = false -> isspace y = false ->
  strip (ws1 ++ (String x mid ++ str1 y) ++ ws2) = String x mid ++ str1 y.
Proof.
  intros H1 H2 Hx Hy. unfold strip.
  rewrite lstrip_space by assumption.
  simpl lstrip. rewrite Hx.
  change (String x ((mid ++ str1 y) ++ ws2))
    with ((String x (mid ++ str1 y)) ++ ws2).
  rewrite rstrip_app_space by assumption.
  change (String x (mid ++ str1 y)) with (String x mid ++ str1 y).
  now apply rstrip_last.
Qed.

(** *** Lines *)

Lemma split_nl_String (c : ascii) (s : string) :
  split_nl (String c s) =
  if Ascii.eqb c nl_char then EmptyString :: split_nl s
  else match split_nl s with
       | h :: t => String c h :: t
       | [] => [str1 c]
       end.
Proof. reflexivity. Qed.

Lemma split_nl_cons (s : string) : exists h t, split_nl s = h :: t.
Proof.
  induction s as [|c s (h & t & IH)].
  - now exists EmptyString, [].
  - rewrite split_nl_String. destruct (Ascii.eqb c nl_char).
    + now exists EmptyString, (split_nl s).
    + rewrite IH. now exists (String c h), t.
Qed.

Lemma split_nl_line (t : string) :
  contains nl t = false -> split_nl t = [t].
Proof.
  induction t as [|c t IH]; intros H; [reflexivity |].
  rewrite contains_eq in H. apply orb_false_elim in H.
  destruct H as [Hc Ht].
  change (startswith nl (String c t)) with (Ascii.eqb nl_char c && true) in Hc.
  rewrite andb_true_r, Ascii.eqb_sym in Hc.
  rewrite split_nl_String, Hc, (IH Ht). reflexivity.
Qed.

Lemma split_nl_app (a b : string) :
  split_nl (a ++ nl ++ b) = (split_nl a ++ split_nl b)%list.
Proof.
  induction a as [|c a IH].
  - reflexivity.
  - change (String c a ++ nl ++ b) with (String c (a ++ nl ++ b)).
    rewrite !split_nl_String. destruct (Ascii.eqb c nl_char).
    + now rewrite IH.
    + rewrite IH. destruct (split_nl_cons a) as (h & t & ->). reflexivity.
Qed.

Lemma join_cons_char (c : ascii) (h : string) (t : list string) :
  join nl (String c h :: t) = String c (join nl (h :: t)).
Proof. destruct t; reflexivity. Qed.

Lemma join_split (s : string) : join nl (split_nl s) = s.
Proof.
  induction s as [|c s IH]; [reflexivity |].
  rewrite split_nl_String. destruct (Ascii.eqb c nl_char) eqn:E.
  - apply Ascii.eqb_eq in E; subst c.
    destruct (split_nl_cons s) as (h & t & Hs). rewrite Hs in *.
    change (join nl (EmptyString :: h :: t))
      with (EmptyString ++ nl ++ join nl (h :: t)).
    now rewrite IH.
  - destruct (split_nl_cons s) as (h & t & Hs). rewrite Hs in *.
    now rewrite join_cons_char, IH.
Qed.

(** *** Suffixes and replacement *)

Lemma rev_str_app (acc a b : string) :
  rev_str acc (a ++ b) = rev_str (rev_str acc a) b.
Proof.
  revert acc; induction a as [|x a IH]; intros acc; simpl;
    [reflexivity | apply IH].
Qed.

Lemma rev_str_acc (acc s : string) :
  rev_str acc s = rev_str EmptyString s ++ acc.
Proof.
  revert acc; induction s as [|x s IH]; intros acc; simpl; [reflexivity |].
  rewrite IH, (IH (String x EmptyString)), str_app_assoc. reflexivity.
Qed.

Lemma endswith_app (a p : string) : endswith p (a ++ p) = true.
Proof.
  unfold endswith.
  rewrite rev_str_app, (rev_str_acc (rev_str EmptyString a)).
  apply startswith_app.
Qed.

Lemma contains_startswith (w s : string) :
  contains w s = false -> startswith w s = false.
Proof.
  intros H. rewrite contains_eq in H. now apply orb_false_elim in H.
Qed.

Lemma replace_fuel_absent (n : nat) (old new s : string) :
  contains old s = false -> replace_fuel n old new s = s.
Proof.
  revert s; induction n as [|n IH]; intros s H; simpl; [reflexivity |].
  rewrite (contains_startswith _ _ H).
  destruct s as [|c s]; [reflexivity |].
  rewrite contains_eq in H. apply orb_false_elim in H.
  now rewrite IH.
Qed.

(** Replacing a text that does not occur changes nothing. *)
Lemma replace_absent (old new s : string) :
  contains old s = false -> replace old new s = s.
Proof. apply replace_fuel_absent. Qed.

End PyFacts.

(** ** Running computations *)

Section Running.

Context {A B : Type}.

Lemma run_ret (a : A) (h : list event) : ret a h = (Ret a, []).
Proof. reflexivity. Qed.

Lemma run_emit (e : event) (h : list event) : emit e h = (Ret tt, [e]).
Proof. reflexivity. Qed.

Lemma run_ask (q : list event -> A) (e : A -> event) (h : list event) :
  ask q e h = (Ret (q h), [e (q h)]).
Proof. reflexivity. Qed.

Lemma run_exit (c : Z) (h : list event) : @sys_exit A c h = (Exit c, []).
Proof. reflexivity. Qed.

Lemma run_bind (m : M A) (f : A -> M B) (h : list event) :
  bind m f h =
  match m h with
  | (Ret a, d) => (fst (f a (h ++ d)%list), (d ++ snd (f a (h ++ d)%list))%list)
  | (Exit c, d) => (Exit c, d)
  end.
Proof.
  unfold bind. destruct (m h) as [[a | c] d]; [| reflexivity].
  now destruct (f a (h ++ d)%list).
Qed.

Lemma run_bind_ret (m : M A) (f : A -> M B) (h d : list event) (a : A) :
  m h = (Ret a, d) ->
  bind m f h = (fst (f a (h ++ d)%list), (d ++ snd (f a (h ++ d)%list))%list).
Proof. intros E. now rewrite run_bind, E. Qed.

Lemma run_bind_exit (m : M A) (f : A -> M B) (h d : list event) (c : Z) :
  m h = (Exit c, d) -> bind m f h = (Exit c, d).
Proof. intros E. now rewrite run_bind, E. Qed.

End Running.

(** Unfolds one layer of sequencing after the other. *)
Ltac run :=
  repeat (rewrite ?run_bind, ?run_emit, ?run_ask, ?run_ret, ?run_exit;
          cbv beta iota; cbn [fst snd]).

(** ** Bounding the events of a computation *)

Lemma count_app (p : event -> bool) (a b : list event) :
  count p (a ++ b) = count p a + count p b.
Proof. unfold count. now rewrite filter_app, List.length_app. Qed.

Lemma count_none (p : event -> bool) (l : list event) :
  count p l = 0 -> existsb p l = false.
Proof.
  unfold count. induction l as [|e l IH]; cbn; [reflexivity |].
  destruct (p e); cbn; [discriminate | exact IH].
Qed.

Section Bounds.

Context {A B : Type} (p : event -> bool).

Lemma bound_ret (a : A) (n : nat) : emits_at_most p n (ret a).
Proof. intros h. cbn. lia. Qed.

Lemma bound_exit (c : Z) (n : nat) : emits_at_most p n (@sys_exit A c).
Proof. intros h. cbn. lia. Qed.

Lemma bound_emit_other (e : event) (n : nat) :
  p e = false -> emits_at_most p n (emit e).
Proof. intros E h. unfold events, count. cbn. rewrite E. cbn. lia. Qed.

Lemma bound_emit (e : event) (n : nat) :
  1 <= n -> emits_at_most p n (emit e).
Proof. intros L h. unfold events, count. cbn. destruct (p e); cbn; lia. Qed.

Lemma bound_ask_other (q : list event -> A) (e : A -> event) (n : nat) :
  (forall a, p (e a) = false) -> emits_at_most p n (ask q e).
Proof. intros E h. unfold events, count. cbn. rewrite E. cbn. lia. Qed.

Lemma bound_ask (q : list event -> A) (e : A -> event) (n : nat) :
  1 <= n -> emits_at_most p n (ask q e).
Proof.
  intros L h. unfold events, count. cbn. destruct (p (e (q h))); cbn; lia.
Qed.

Lemma bound_bind (n k t : nat) (m : M A) (f : A -> M B) :
  emits_at_most p n m -> (forall a, emits_at_most p k (f a)) ->
  n + k <= t -> emits_at_most p t (bind m f).
Proof.
  intros Hm Hf L h. unfold events. rewrite run_bind.
  specialize (Hm h). unfold events in Hm.
  destruct (m h) as [[a | c] d]; cbn [fst snd] in *; [| lia].
  rewrite count_app. specialize (Hf a (h ++ d)%list). unfold events in Hf.
  lia.
Qed.

Lemma bound_weaken (n t : nat) (m : M A) :
  emits_at_most p n m -> n <= t -> emits_at_most p t m.
Proof. intros Hm L h. specialize (Hm h). lia. Qed.

End Bounds.

(** Splits a bound over a sequence into [n] for the first computation and
    [k] for the rest. *)
Ltac bound_seq n k :=
  apply (bound_bind _ n k); [ | intros ? | lia].

Create HintDb bounds.

Ltac bound_leaf :=
  first [ apply bound_ret | apply bound_exit
        | apply bound_emit_other; reflexivity
        | apply bound_ask_other; intros; reflexivity
        | apply bound_emit; lia
        | apply bound_ask; lia
        | solve [eauto with bounds] ].

(** Proves [emits_at_most p t m] for a concrete kind [p] by walking through
    [m]: every step is given 0, 1 or 2 of the events allowed. *)
Ltac bound :=
  intros; cbv zeta;
  first
    [ bound_leaf
    | match goal with
      | |- emits_at_most _ _ (if ?b then _ else _) => destruct b; bound
      | |- emits_at_most _ _ (match ?x with _ => _ end) => destruct x; bound
      | |- emits_at_most _ ?t (bind _ _) =>
          first
            [ apply (bound_bind _ 0 t); [solve [bound] | bound | lia]
            | match t with
              | S ?t' =>
                  apply (bound_bind _ 1 t'); [solve [bound] | bound | lia]
              end
            | match t with
              | S (S ?t') =>
                  apply (bound_bind _ 2 t'); [solve [bound] | bound | lia]
              end ]
      end ].

(** ** Server supervision and the completion client *)

Lemma wait_for_server_quiet (p : event -> bool) (W : World) (k : nat)
      (host : string) (port : Z) (n : nat) :
  (forall u r, p (Get u r) = false) -> (forall t, p (Echo t) = false) ->
  p Sleep = false ->
  emits_at_most p n (wait_for_server W k host port).
Proof.
  intros Hg He Hs. revert n. induction k as [|k IH]; intros n;
    cbn [wait_for_server].
  - apply bound_ret.
  - unfold is_server_running, echo.
    apply (bound_bind _ 0 0); [ | intros up | lia].
    + apply (bound_bind _ 0 0); [ | intros r | lia].
      * apply bound_ask_other. intros; apply Hg.
      * apply bound_ret.
    + destruct up; [apply bound_ret |].
      apply (bound_bind _ 0 0); [ | intros _ | lia].
      * apply bound_emit_other. apply He.
      * apply (bound_bind _ 0 0); [ | intros _ | lia].
        -- now apply bound_emit_other.
        -- apply IH.
Qed.

#[local] Hint Extern 1 (emits_at_most _ _ (wait_for_server _ _ _ _)) =>
  apply wait_for_server_quiet; intros; reflexivity : bounds.

Ltac open_client :=
  unfold call_llm_api, is_server_running, start_server, post_chat, echo.

Lemma call_llm_api_runs (W : World) (prompt : string) (config : Config)
      (n : nat) :
  emits_at_most is_run n (call_llm_api W prompt config).
Proof. open_client. bound. Qed.

Lemma call_llm_api_posts (W : World) (prompt : string) (config : Config) :
  emits_at_most is_post 1 (call_llm_api W prompt config).
Proof. open_client. bound. Qed.

Lemma call_llm_api_repair_posts (W : World) (prompt : string)
      (config : Config) :
  emits_at_most is_repair_post 1 (call_llm_api W prompt config).
Proof. open_client. bound. Qed.

(** The request of [generate] is not a repair request. *)
Lemma call_llm_api_generate_prompt (W : World) (description : string)
      (config : Config) (n : nat) :
  emits_at_most is_repair_post n
    (call_llm_api W (generate_prompt description) config).
Proof. open_client. bound. Qed.

#[local] Hint Extern 1 (emits_at_most is_run _ (call_llm_api _ _ _)) =>
  apply call_llm_api_runs : bounds.
#[local] Hint Extern 1 (emits_at_most is_post _ (call_llm_api _ _ _)) =>
  apply (bound_weaken _ 1); [apply call_llm_api_posts | lia] : bounds.
#[local] Hint Extern 1
  (emits_at_most is_repair_post _ (call_llm_api _ (generate_prompt _) _)) =>
  apply call_llm_api_generate_prompt : bounds.
#[local] Hint Extern 2 (emits_at_most is_repair_post _ (call_llm_api _ _ _)) =>
  apply (bound_weaken _ 1); [apply call_llm_api_repair_posts | lia] : bounds.

Lemma run_is_server_running (W : World) (host : string) (port : Z)
      (h : list event) :
  is_server_running W host port h =
  (Ret match health W h (health_url host port) with
       | Some status => (status =? 200)%Z
       | None => false
       end,
   [Get (health_url host port) (health W h (health_url host port))]).
Proof. unfold is_server_running. run. reflexivity. Qed.

Lemma run_post_chat (W : World) (host : string) (port : Z)
      (prompt : string) (h : list event) :
  post_chat W host port prompt h =
  let r := chat W h (chat_url host port) prompt in
  let sent := PostChat (chat_url host port) prompt r in
  match r with
  | Reply status b =>
      if (status =? 200)%Z
      then match b with
           | Content text => (Ret (Some text), [sent])
           | Malformed err =>
               (Ret None, [sent; Echo ("Error calling API: " ++ err)])
           end
      else (Ret None,
            [sent; Echo ("Error: API returned status code "
                         ++ str_of_Z status)])
  | Fault err => (Ret None, [sent; Echo ("Error calling API: " ++ err)])
  end.
Proof.
  unfold post_chat, echo. run.
  destruct (chat W h (chat_url host port) prompt) as [status b | err];
    cbv zeta.
  - destruct (status =? 200)%Z; [destruct b |]; run; reflexivity.
  - run. reflexivity.
Qed.

(** With a server that answers the first probe, [call_llm_api] is the probe
    followed by the request. *)
Lemma call_llm_api_healthy (W : World) (prompt : string) (config : Config)
      (h : list event) :
  health W h (probe_url config) = Some 200%Z ->
  call_llm_api W prompt config h =
  let probed := Get (probe_url config) (Some 200%Z) in
  let sent :=
    post_chat W (api_host config) (api_port config) prompt
              (h ++ [probed])%list in
  (fst sent, probed :: snd sent).
Proof.
  intros Hh. unfold call_llm_api. cbv zeta.
  fold (api_host config) (api_port config).
  rewrite run_bind, run_is_server_running.
  fold (probe_url config). rewrite Hh. reflexivity.
Qed.

Lemma count_zero_in (p : event -> bool) (l : list event) (e : event) :
  count p l = 0 -> In e l -> p e = false.
Proof.
  intros Hc Hin. apply count_none in Hc.
  destruct (p e) eqn:E; [| reflexivity].
  assert (existsb p l = true) by (apply existsb_exists; eauto).
  congruence.
Qed.

Lemma start_server_cases (W : World) (config : Config) (h : list event) :
  exists d,
    count is_post d = 0
    /\ (start_server W config h = (Ret tt, d)
        \/ start_server W config h = (Exit 1%Z, d)).
Proof.
  unfold start_server, echo. cbv zeta. run.
  destruct (path_exists W h (get (model_path config) MODEL_PATH));
    cbn [negb]; run; eexists; (split; [| (left; reflexivity) || (right; reflexivity)]);
    reflexivity.
Qed.

Lemma wait_for_server_cases (W : World) (k : nat) (host : string) (port : Z)
      (h : list event) :
  exists b d,
    count is_post d = 0 /\ wait_for_server W k host port h = (Ret b, d).
Proof.
  revert h. induction k as [|k IH]; intros h; cbn [wait_for_server].
  - now exists false, [].
  - rewrite run_bind, run_is_server_running.
    destruct (health W h (health_url host port)) as [status |].
    + destruct (status =? 200)%Z.
      * run. eexists _, _. split; [| reflexivity]. reflexivity.
      * unfold echo. run.
        match goal with |- context [wait_for_server W k host port ?h'] =>
          destruct (IH h') as (b & d & Hc & ->) end.
        cbn [fst snd]. eexists _, _. split; [| reflexivity].
        exact Hc.
    + unfold echo. run.
      match goal with |- context [wait_for_server W k host port ?h'] =>
        destruct (IH h') as (b & d & Hc & ->) end.
      cbn [fst snd]. eexists _, _. split; [| reflexivity]. exact Hc.
Qed.

(** [call_llm_api] either never reaches the request (and gives [None], or
    leaves the program when the model file is missing), or is some events
    without a request followed by the request. *)
Lemma call_llm_api_cases (W : World) (prompt : string) (config : Config)
      (h : list event) :
  (exists pre,
      count is_post pre = 0
      /\ call_llm_api W prompt config h =
         (fst (post_chat W (api_host config) (api_port config) prompt
                         (h ++ pre)%list),
          (pre ++ snd (post_chat W (api_host config) (api_port config) prompt
                                 (h ++ pre)%list))%list))
  \/ (exists d,
         count is_post d = 0
         /\ (call_llm_api W prompt config h = (Ret None, d)
             \/ call_llm_api W prompt config h = (Exit 1%Z, d))).
Proof.
  unfold call_llm_api. cbv zeta. fold (api_host config) (api_port config).
  rewrite run_bind, run_is_server_running.
  destruct (match health W h (health_url (api_host config) (api_port config))
            with Some status => (status =? 200)%Z | None => false end);
    cbn [negb].
  - left. eexists. split; [| reflexivity]. reflexivity.
  - unfold echo. rewrite run_bind, run_emit.
    rewrite run_bind.
    match goal with |- context [start_server W config ?h'] =>
      destruct (start_server_cases W config h') as (d1 & Hc1 & [-> | ->]) end.
    + rewrite run_bind.
      match goal with |- context [wait_for_server W 10 ?a ?b ?h'] =>
        destruct (wait_for_server_cases W 10 a b h')
          as (started & d2 & Hc2 & ->) end.
      destruct started.
      * left. cbn [fst snd].
        exists ([Get (health_url (api_host config) (api_port config))
                     (health W h (health_url (api_host config)
                                             (api_port config)));
                 Echo "Server is not running. Starting server..."]
                ++ d1 ++ d2)%list.
        split.
        -- rewrite !count_app, Hc1, Hc2. reflexivity.
        -- rewrite <- !List.app_assoc. reflexivity.
      * right. run. cbn [fst snd]. eexists. split; cycle 1.
        -- left; reflexivity.
        -- change (?a :: ?b :: (d1 ++ d2 ++ [?c]))%list
             with ([a; b] ++ d1 ++ d2 ++ [c])%list.
           rewrite !count_app, Hc1, Hc2. reflexivity.
    + right. cbn [fst snd]. eexists. split; cycle 1.
      * right; reflexivity.
      * change (?a :: ?b :: d1)%list with ([a; b] ++ d1)%list.
        rewrite !count_app, Hc1. reflexivity.
Qed.

(** C6: when the first health probe answers 200, [call_llm_api] goes
    straight from the probe to the request: one probe, no waiting, the
    model file is not looked for, and no launcher script is written, made
    executable or started. *)
Theorem healthy_server_is_not_started (W : World) (prompt : string)
        (config : Config) (h : list event) :
  health W h (probe_url config) = Some 200%Z ->
  let trace := events (call_llm_api W prompt config) h in
  let probed := Get (probe_url config) (Some 200%Z) in
  (exists tail,
      trace =
      probed
      :: PostChat (completions_url config) prompt
           (chat W (h ++ [probed]) (completions_url config) prompt)
      :: tail)
  /\ existsb starts_server trace = false
  /\ count is_probe trace = 1
  /\ ~ In Sleep trace
  /\ (forall path b, ~ In (Exists path b) trace).
Proof.
  intros Hh. cbv zeta. unfold events.
  rewrite (call_llm_api_healthy _ _ _ _ Hh). cbv zeta.
  rewrite run_post_chat. cbv zeta. fold (completions_url config).
  destruct (chat W _ (completions_url config) prompt) as [status b | err];
    [destruct (status =? 200)%Z; [destruct b |] |];
    cbn [fst snd];
    (split; [eexists; reflexivity |]);
    (split; [reflexivity |]); (split; [reflexivity |]);
    (split; [| intros path b0]); cbn [In]; intuition discriminate.
Qed.

Lemma healthy_server_is_not_started_witness :
  let trace := events (call_llm_api unreachable_world "ls" no_config) [] in
  let probed := Get (probe_url no_config) (Some 200%Z) in
  (exists tail,
      trace =
      probed
      :: PostChat (completions_url no_config) "ls"
           (chat unreachable_world ([] ++ [probed])
                 (completions_url no_config) "ls")
      :: tail)
  /\ existsb starts_server trace = false
  /\ count is_probe trace = 1
  /\ ~ In Sleep trace
  /\ (forall path b, ~ In (Exists path b) trace).
Proof.
  apply (healthy_server_is_not_started unreachable_world "ls" no_config []).
  reflexivity.
Defined.

(** C4, as the program has it: a request answered 200 gives the content
    of the first choice; a request answered with any other status and a
    request that met a transport fault both give [None], and so does a
    200 whose body cannot be read.  The cases differ in the message
    printed, not in what the caller receives. *)
Theorem completion_failures_are_none (W : World) (prompt : string)
        (config : Config) (h : list event) (u p : string) (r : http_reply) :
  let trace := events (call_llm_api W prompt config) h in
  let returned := result (call_llm_api W prompt config) h in
  In (PostChat u p r) trace ->
  match r with
  | Reply status b =>
      if (status =? 200)%Z
      then match b with
           | Content text => returned = Ret (Some text)
           | Malformed err =>
               returned = Ret None
               /\ In (Echo ("Error calling API: " ++ err)) trace
           end
      else returned = Ret None
           /\ In (Echo ("Error: API returned status code "
                        ++ str_of_Z status)) trace
  | Fault err =>
      returned = Ret None /\ In (Echo ("Error calling API: " ++ err)) trace
  end.
Proof.
  cbv zeta. unfold events, result. intros Hin.
  destruct (call_llm_api_cases W prompt config h)
    as [(pre & Hpre & E) | (d & Hd & [E | E])]; rewrite E in *;
    cbn [fst snd] in *.
  - apply in_app_or in Hin. destruct Hin as [Hin | Hin].
    + apply (count_zero_in _ _ _ Hpre) in Hin. discriminate.
    + rewrite run_post_chat in *. cbv zeta in *.
      destruct (chat W (h ++ pre) (chat_url (api_host config)
                                            (api_port config)) prompt)
        as [status b | err] eqn:Hc.
      * destruct (status =? 200)%Z eqn:Hs; [destruct b |];
          cbn [fst snd In] in *;
          destruct Hin as [Hin | Hin]; try (now intuition discriminate);
          injection Hin as <- <- <-; rewrite ?Hs;
          repeat split; try reflexivity;
          apply in_or_app; right; cbn [In]; auto.
      * cbn [fst snd In] in *.
        destruct Hin as [Hin | Hin]; try (now intuition discriminate).
        injection Hin as <- <- <-.
        split; [reflexivity |]. apply in_or_app; right; cbn [In]; auto.
  - apply (count_zero_in _ _ _ Hd) in Hin. discriminate.
  - apply (count_zero_in _ _ _ Hd) in Hin. discriminate.
Qed.

Lemma completion_failures_are_none_witness :
  result (call_llm_api failing_server_world "ls" no_config) [] = Ret None
  /\ In (Echo ("Error: API returned status code " ++ str_of_Z 500))
        (events (call_llm_api failing_server_world "ls" no_config) []).
Proof.
  apply (completion_failures_are_none failing_server_world "ls" no_config []
           (completions_url no_config) "ls"
           (Reply 500 (Content "Internal Server Error"))).
  vm_compute. right; left. reflexivity.
Defined.

(** C4 does not hold as stated: what [call_llm_api] returns does not tell
    a response with another status than 200 from a transport fault.  A
    server that answers 500 and a connection that is refused give the
    caller the same value. *)
Lemma failures_not_told_apart :
  ~ forall (W1 W2 : World) (prompt : string) (config : Config)
           (u1 u2 : string) (status : Z) (b : body) (err : string),
      status <> 200%Z ->
      In (PostChat u1 prompt (Reply status b))
         (events (call_llm_api W1 prompt config) []) ->
      In (PostChat u2 prompt (Fault err))
         (events (call_llm_api W2 prompt config) []) ->
      result (call_llm_api W1 prompt config) []
      <> result (call_llm_api W2 prompt config) [].
Proof.
  intros H.
  apply (H failing_server_world unreachable_world "ls" no_config
           (completions_url no_config) (completions_url no_config)
           500%Z (Content "Internal Server Error") "Connection refused").
  - discriminate.
  - vm_compute. right; left. reflexivity.
  - vm_compute. right; left. reflexivity.
  - reflexivity.
Qed.

(** ** The command executor *)

Import PyFacts.

Lemma is_dangerous_iff (command : string) :
  is_dangerous command = true <-> mentions_danger_word command.
Proof.
  unfold is_dangerous, mentions_danger_word. rewrite existsb_exists. split.
  - intros (w & Hin & Hc). apply contains_inv in Hc.
    destruct Hc as (a & b & ->). now exists w, a, b.
  - intros (w & a & b & Hin & ->). exists w. split; [assumption |].
    apply contains_app.
Qed.

Lemma execute_command_dangerous (W : World) (command : string)
      (h : list event) :
  is_dangerous command = true ->
  execute_command W command h =
  let ans := answer W (h ++ [executing command]) confirm_text in
  if ans
  then
    let r := shell W (h ++ [executing command; Confirm confirm_text true])
                   command in
    (Ret (output_of r),
     [executing command; Confirm confirm_text true; Run command r])
  else (Ret cancelled_text, [executing command; Confirm confirm_text false]).
Proof.
  intros Hd. unfold execute_command, echo, confirm. rewrite Hd. run.
  fold (executing command).
  destruct (answer W (h ++ [executing command]) confirm_text) eqn:Ha;
    cbn [negb]; run; [| reflexivity].
  rewrite <- List.app_assoc. cbn [List.app].
  destruct (shell W _ command); run; reflexivity.
Qed.

Lemma execute_command_plain (W : World) (command : string)
      (h : list event) :
  is_dangerous command = false ->
  execute_command W command h =
  let r := shell W (h ++ [executing command]) command in
  (Ret (output_of r), [executing command; Run command r]).
Proof.
  intros Hd. unfold execute_command, echo, confirm. rewrite Hd. run.
  fold (executing command). cbn [negb]. run.
  rewrite List.app_nil_r.
  destruct (shell W _ command); run; reflexivity.
Qed.


(** C2: a command whose text contains one of the words of the denylist is
    run only behind the confirmation question.  The question comes first,
    and what follows is decided by the answer the user gives to it: on a
    yes the process is started and its output returned, on a no nothing is
    started.  A command whose text contains none of the words is run at
    once, with no question asked. *)
Theorem confirmation_gate (W : World) (command : string) (h : list event) :
  (mentions_danger_word command ->
   events (execute_command W command) h =
   gated_run W h command (answer W (h ++ [executing command]) confirm_text)
   /\ (answer W (h ++ [executing command]) confirm_text = true ->
       execute_command W command h =
       (Ret (output_of
               (shell W (h ++ [executing command; Confirm confirm_text true])
                      command)),
        [executing command; Confirm confirm_text true;
         Run command
             (shell W (h ++ [executing command; Confirm confirm_text true])
                    command)]))
   /\ (answer W (h ++ [executing command]) confirm_text = false ->
       execute_command W command h =
       (Ret cancelled_text,
        [executing command; Confirm confirm_text false])))
  /\
  (~ mentions_danger_word command ->
   execute_command W command h =
   (Ret (output_of (shell W (h ++ [executing command]) command)),
    [executing command;
     Run command (shell W (h ++ [executing command]) command)])).
Proof.
  split; intros Hm.
  - apply is_dangerous_iff in Hm. unfold events.
    rewrite (execute_command_dangerous _ _ _ Hm). cbv zeta.
    unfold gated_run.
    destruct (answer W (h ++ [executing command]) confirm_text);
      repeat split; try reflexivity; discriminate.
  - rewrite <- is_dangerous_iff in Hm. apply not_true_is_false in Hm.
    now rewrite (execute_command_plain _ _ _ Hm).
Qed.

Lemma confirmation_gate_witness :
  execute_command silent_failure_world "rm -rf /tmp/x" [] =
  (Ret EmptyString,
   [executing "rm -rf /tmp/x"; Confirm confirm_text true;
    Run "rm -rf /tmp/x" (Completed EmptyString EmptyString 1)])
  /\
  execute_command declining_world "rm -rf /tmp/x" [] =
  (Ret cancelled_text,
   [executing "rm -rf /tmp/x"; Confirm confirm_text false])
  /\
  execute_command declining_world "ls -l" [] =
  (Ret "unused",
   [executing "ls -l"; Run "ls -l" (Completed "unused" EmptyString 0)]).
Proof.
  assert (dangerous : mentions_danger_word "rm -rf /tmp/x")
    by (apply is_dangerous_iff; reflexivity).
  assert (harmless : ~ mentions_danger_word "ls -l")
    by (rewrite <- is_dangerous_iff; vm_compute; discriminate).
  split; [| split].
  - exact (proj1 (proj2 (proj1 (confirmation_gate silent_failure_world
                                  "rm -rf /tmp/x" []) dangerous))
                 eq_refl).
  - exact (proj2 (proj2 (proj1 (confirmation_gate declining_world
                                  "rm -rf /tmp/x" []) dangerous))
                 eq_refl).
  - exact (proj2 (confirmation_gate declining_world "ls -l" []) harmless).
Defined.

(** C5, as the program has it: when the confirmation of a command of the
    denylist is declined, [execute_command] returns the text
    "Command execution cancelled." and starts no process.  What it returns
    is that text alone. *)
Theorem declined_is_cancelled (W : World) (command : string)
        (h : list event) :
  mentions_danger_word command ->
  answer W (h ++ [executing command]) confirm_text = false ->
  execute_command W command h =
  (Ret cancelled_text, [executing command; Confirm confirm_text false])
  /\ forall r, ~ In (Run command r) (events (execute_command W command) h).
Proof.
  intros Hm Ha. apply is_dangerous_iff in Hm. unfold events.
  rewrite (execute_command_dangerous _ _ _ Hm). cbv zeta. rewrite Ha.
  split; [reflexivity |].
  intros r [E | [E | []]]; discriminate.
Qed.

Lemma declined_is_cancelled_witness :
  execute_command declining_world "rm -rf /tmp/x" [] =
  (Ret cancelled_text,
   [executing "rm -rf /tmp/x"; Confirm confirm_text false])
  /\ forall r,
      ~ In (Run "rm -rf /tmp/x" r)
           (events (execute_command declining_world "rm -rf /tmp/x") []).
Proof.
  apply (declined_is_cancelled declining_world "rm -rf /tmp/x" []).
  - apply is_dangerous_iff. reflexivity.
  - reflexivity.
Defined.

(** C5 does not hold as stated: no exit status can be read off what
    [execute_command] returns, let alone one that tells a cancellation
    from a process that ran.  Declining [rm -rf /tmp/x] and running it,
    when it prints the same words and ends with status 0, return the same
    value. *)
Lemma cancellation_has_no_sentinel :
  ~ exists (exit_status : string -> Z) (sentinel : Z),
      forall (W : World) (command out : string),
        result (execute_command W command) [] = Ret out ->
        (answer W [executing command] confirm_text = false ->
         mentions_danger_word command -> exit_status out = sentinel)
        /\
        (forall stdout stderr rc,
            In (Run command (Completed stdout stderr rc))
               (events (execute_command W command) []) ->
            exit_status out = rc /\ rc <> sentinel).
Proof.
  intros (exit_status & sentinel & H).
  destruct (H declining_world "rm -rf /tmp/x" cancelled_text eq_refl)
    as [Hd _].
  destruct (H printing_world "rm -rf /tmp/x" cancelled_text eq_refl)
    as [_ Hp].
  specialize (Hd eq_refl).
  assert (Hm : mentions_danger_word "rm -rf /tmp/x")
    by (apply is_dangerous_iff; reflexivity).
  specialize (Hd Hm).
  destruct (Hp cancelled_text EmptyString 0%Z) as [E1 E2].
  - vm_compute. right; right; left. reflexivity.
  - congruence.
Qed.

(** *** Failure markers *)

(** The third test of [fix] adds nothing to the first two. *)
Lemma has_error_fix_eq (output : string) :
  has_error_fix output = has_error output.
Proof.
  unfold has_error_fix, has_error.
  destruct (contains "command not found" (lower output)) eqn:E;
    [| apply orb_false_r].
  apply (contains_inner "command " "not found" EmptyString) in E.
  rewrite E. now rewrite !orb_true_r.
Qed.

Lemma has_error_iff (output : string) :
  has_error output = true <->
  (exists a b, lower output = a ++ "error" ++ b)
  \/ (exists a b, lower output = a ++ "not found" ++ b).
Proof.
  unfold has_error. rewrite orb_true_iff, !contains_iff. reflexivity.
Qed.

Lemma combined_output_has_error (stdout stderr : string) :
  stderr <> EmptyString ->
  has_error (combined_output stdout stderr) = true.
Proof.
  intros Hne. unfold has_error, combined_output.
  destruct stderr as [|c stderr]; [contradiction |]. cbn [truthy].
  rewrite !lower_app.
  rewrite <- (str_app_assoc (lower stdout) (lower nl)).
  rewrite (contains_sub "error" _ (lower "Errors:")); reflexivity.
Qed.

(** C9: whenever the process that [execute_command] ran wrote anything to
    standard error, the failure test of both callers holds of the output
    returned, whatever was written and whatever the exit status: the
    separator line "Errors:" put before the captured text reads "errors:"
    in lower case. *)
Theorem stderr_marks_failure (W : World) (command : string) (h : list event)
        (stdout stderr : string) (rc : Z) :
  stderr <> EmptyString ->
  In (Run command (Completed stdout stderr rc))
     (events (execute_command W command) h) ->
  exists out,
    result (execute_command W command) h = Ret out
    /\ out = stdout ++ nl ++ "Errors:" ++ nl ++ stderr
    /\ contains "error" (lower "Errors:") = true
    /\ has_error out = true
    /\ has_error_fix out = true.
Proof.
  intros Hne Hin.
  assert (Hout : result (execute_command W command) h
                 = Ret (combined_output stdout stderr)).
  { unfold result, events in *.
    destruct (is_dangerous command) eqn:Hd.
    - rewrite (execute_command_dangerous _ _ _ Hd) in *. cbv zeta in *.
      destruct (answer W (h ++ [executing command]) confirm_text).
      + cbn [fst snd] in *.
        destruct Hin as [E | [E | [E | []]]]; try discriminate.
        injection E as E. now rewrite E.
      + destruct Hin as [E | [E | []]]; discriminate.
    - rewrite (execute_command_plain _ _ _ Hd) in *. cbv zeta in *.
      cbn [fst snd] in *.
      destruct Hin as [E | [E | []]]; try discriminate.
      injection E as E. now rewrite E. }
  exists (combined_output stdout stderr).
  split; [exact Hout |].
  split; [unfold combined_output; now destruct stderr |].
  split; [reflexivity |].
  rewrite has_error_fix_eq.
  split; now apply combined_output_has_error.
Qed.

Lemma stderr_marks_failure_witness :
  exists out,
    result (execute_command
              (steady_world (Fault "unused") true
                            (Completed EmptyString "cannot open" 0))
              "cat notes.txt") [] = Ret out
    /\ out = EmptyString ++ nl ++ "Errors:" ++ nl ++ "cannot open"
    /\ contains "error" (lower "Errors:") = true
    /\ has_error out = true
    /\ has_error_fix out = true.
Proof.
  apply (stderr_marks_failure _ "cat notes.txt" [] EmptyString
                              "cannot open" 0%Z).
  - discriminate.
  - vm_compute. right; left. reflexivity.
Defined.


(** ** The repair loop *)

Ltac open_executor := unfold execute_command, echo, confirm.

Lemma execute_command_runs (W : World) (command : string) :
  emits_at_most is_run 1 (execute_command W command).
Proof. open_executor. bound. Qed.

Lemma execute_command_posts (W : World) (command : string) (n : nat) :
  emits_at_most is_post n (execute_command W command).
Proof. open_executor. bound. Qed.

Lemma execute_command_repair_posts (W : World) (command : string) (n : nat) :
  emits_at_most is_repair_post n (execute_command W command).
Proof. open_executor. bound. Qed.

#[local] Hint Extern 1 (emits_at_most is_run _ (execute_command _ _)) =>
  apply (bound_weaken _ 1); [apply execute_command_runs | lia] : bounds.
#[local] Hint Extern 1 (emits_at_most is_post _ (execute_command _ _)) =>
  apply execute_command_posts : bounds.
#[local] Hint Extern 1 (emits_at_most is_repair_post _ (execute_command _ _)) =>
  apply execute_command_repair_posts : bounds.

Ltac open_repair := unfold fix_command_errors, echo, confirm.

Lemma fix_command_errors_runs (W : World) (e c : string) :
  emits_at_most is_run 1 (fix_command_errors W e c).
Proof. open_repair. bound. Qed.

Lemma fix_command_errors_posts (W : World) (e c : string) :
  emits_at_most is_post 1 (fix_command_errors W e c).
Proof. open_repair. bound. Qed.

Lemma fix_command_errors_repair_posts (W : World) (e c : string) :
  emits_at_most is_repair_post 1 (fix_command_errors W e c).
Proof. open_repair. bound. Qed.

#[local] Hint Extern 1 (emits_at_most is_run _ (fix_command_errors _ _ _)) =>
  apply (bound_weaken _ 1); [apply fix_command_errors_runs | lia] : bounds.
#[local] Hint Extern 1 (emits_at_most is_post _ (fix_command_errors _ _ _)) =>
  apply (bound_weaken _ 1); [apply fix_command_errors_posts | lia] : bounds.
#[local] Hint Extern 1
  (emits_at_most is_repair_post _ (fix_command_errors _ _ _)) =>
  apply (bound_weaken _ 1); [apply fix_command_errors_repair_posts | lia]
  : bounds.

Lemma fix_cmd_bounds (W : World) (args : list string) :
  emits_at_most is_run 2 (fix_cmd W args)
  /\ emits_at_most is_post 1 (fix_cmd W args).
Proof. split; unfold fix_cmd, echo; bound. Qed.

Lemma generate_bounds (W : World) (description : string) (execute : bool) :
  emits_at_most is_run 2 (generate W description execute)
  /\ emits_at_most is_post 2 (generate W description execute)
  /\ emits_at_most is_repair_post 1 (generate W description execute).
Proof. repeat split; unfold generate, echo, confirm; bound. Qed.

Lemma fixed_command_truthy (response fixed : string) :
  fixed_command response = Some fixed -> truthy response = true.
Proof. destruct response; [discriminate | reflexivity]. Qed.

Section Persistent_failure.

Variable W : World.
Hypothesis healthy : always_healthy W.
Hypothesis offers : always_offers W.
Hypothesis yes : always_yes W.
Hypothesis fails : always_fails W.

Lemma execute_command_fails (command : string) (h : list event) :
  exists out d,
    execute_command W command h = (Ret out, d)
    /\ has_error out = true
    /\ count is_run d = 1 /\ count is_post d = 0
    /\ count is_repair_post d = 0.
Proof.
  destruct (is_dangerous command) eqn:Hd.
  - rewrite (execute_command_dangerous _ _ _ Hd). cbv zeta. rewrite yes.
    eexists _, _. split; [reflexivity |]. split; [apply fails |].
    repeat split.
  - rewrite (execute_command_plain _ _ _ Hd). cbv zeta.
    eexists _, _. split; [reflexivity |]. split; [apply fails |].
    repeat split.
Qed.

Lemma call_llm_api_offers (prompt : string) (h : list event) :
  exists response fixed r,
    call_llm_api W prompt (load_config W) h =
    (Ret (Some response),
     [Get (probe_url (load_config W)) (Some 200%Z);
      PostChat (completions_url (load_config W)) prompt r])
    /\ fixed_command response = Some fixed.
Proof.
  rewrite (call_llm_api_healthy _ _ _ _ (healthy _ _)). cbv zeta.
  rewrite run_post_chat. cbv zeta. fold (completions_url (load_config W)).
  destruct (offers (h ++ [Get (probe_url (load_config W)) (Some 200%Z)])%list
                   (completions_url (load_config W)) prompt)
    as (response & fixed & Hc & Hf).
  rewrite Hc. cbn [Z.eqb Pos.eqb fst snd].
  now exists response, fixed, (Reply 200 (Content response)).
Qed.

Lemma fix_command_errors_repairs (e c : string) (h : list event) :
  exists out d,
    fix_command_errors W e c h = (Ret (Some out), d)
    /\ has_error out = true
    /\ count is_run d = 1 /\ count is_post d = 1
    /\ count is_repair_post d = 1.
Proof.
  unfold fix_command_errors. cbv zeta.
  destruct (call_llm_api_offers (repair_prompt e c) h)
    as (response & fixed & r & Hcall & Hfixed).
  rewrite (run_bind_ret _ _ _ _ _ Hcall).
  rewrite (fixed_command_truthy _ _ Hfixed), Hfixed.
  unfold echo, confirm. run. rewrite yes. run.
  match goal with |- context [execute_command W fixed ?h'] =>
    destruct (execute_command_fails fixed h')
      as (out & d & -> & Hout & Hr & Hp & Hrp) end.
  run. eexists _, _. split; [reflexivity |]. split; [exact Hout |].
  rewrite List.app_nil_r, !count_app, Hr, Hp, Hrp.
  repeat split.
Qed.

Lemma fix_cmd_repairs_once (args : list string) (h : list event) :
  exists d,
    fix_cmd W args h = (Ret tt, d)
    /\ count is_run d = 2 /\ count is_post d = 1.
Proof.
  unfold fix_cmd, echo. cbv zeta. run.
  match goal with |- context [execute_command W ?c ?h'] =>
    destruct (execute_command_fails c h')
      as (out & d & -> & Hout & Hr & Hp & _) end.
  cbn [fst snd]. rewrite has_error_fix_eq, Hout. run.
  match goal with |- context [fix_command_errors W ?e ?c ?h'] =>
    destruct (fix_command_errors_repairs e c h')
      as (out2 & d2 & -> & Hout2 & Hr2 & Hp2 & _) end.
  cbn [fst snd].
  assert (Ht : truthy out2 = true)
    by (destruct out2; [discriminate | reflexivity]).
  rewrite Ht. run.
  eexists. split; [reflexivity |].
  rewrite !count_app, Hr, Hp, Hr2, Hp2. split; reflexivity.
Qed.

Lemma generate_repairs_once (description : string) (h : list event) :
  exists d,
    generate W description true h = (Ret tt, d)
    /\ count is_run d = 2 /\ count is_repair_post d = 1.
Proof.
  unfold generate. cbv zeta. unfold echo at 1.
  rewrite run_bind, run_emit. cbv beta iota. cbn [fst snd].
  rewrite run_bind.
  match goal with |- context [call_llm_api W ?p ?c ?h'] =>
    destruct (call_llm_api_offers p h')
      as (response & fixed & r & -> & Hfixed) end.
  cbv beta iota. cbn [fst snd].
  rewrite (fixed_command_truthy _ _ Hfixed).
  unfold echo, confirm. run.
  match goal with |- context [execute_command W ?c ?h'] =>
    destruct (execute_command_fails c h')
      as (out & d & -> & Hout & Hr & _ & Hp) end.
  cbn [fst snd]. run. rewrite Hout. run. rewrite yes. run.
  match goal with |- context [fix_command_errors W ?e ?c ?h'] =>
    destruct (fix_command_errors_repairs e c h')
      as (out2 & d2 & -> & Hout2 & Hr2 & _ & Hp2) end.
  cbn [fst snd]. run.
  eexists. split; [reflexivity |].
  rewrite !count_app, Hr, Hp, Hr2, Hp2. split; reflexivity.
Qed.

End Persistent_failure.

(** C1: one run of [fix], or of [generate --execute], starts at most two
    processes and sends the model at most one repair request.  When the
    server is up, the model always proposes a command, the user always
    agrees and every command fails, the original command is run once, the
    model is asked once, the proposed command is run once, and the flow
    ends there although that second run failed too. *)
Theorem one_repair_cycle (W : World) :
  (forall args,
      emits_at_most is_run 2 (fix_cmd W args)
      /\ emits_at_most is_post 1 (fix_cmd W args))
  /\ (forall description execute,
         emits_at_most is_run 2 (generate W description execute)
         /\ emits_at_most is_repair_post 1 (generate W description execute))
  /\ (always_healthy W -> always_offers W -> always_yes W ->
      always_fails W ->
      forall h,
        (forall args,
            result (fix_cmd W args) h = Ret tt
            /\ count is_run (events (fix_cmd W args) h) = 2
            /\ count is_post (events (fix_cmd W args) h) = 1)
        /\ (forall description,
               result (generate W description true) h = Ret tt
               /\ count is_run (events (generate W description true) h) = 2
               /\ count is_repair_post
                    (events (generate W description true) h) = 1)).
Proof.
  split; [apply fix_cmd_bounds |].
  split; [intros description execute;
          destruct (generate_bounds W description execute) as (? & ? & ?);
          now split |].
  intros healthy offers yes fails h. split.
  - intros args.
    destruct (fix_cmd_repairs_once W healthy offers yes fails args h)
      as (d & E & Hr & Hp).
    unfold result, events. now rewrite E.
  - intros description.
    destruct (generate_repairs_once W healthy offers yes fails description h)
      as (d & E & Hr & Hp).
    unfold result, events. now rewrite E.
Qed.

Lemma one_repair_cycle_witness :
  result (fix_cmd stubborn_world ["catt"; "file.txt"]) [] = Ret tt
  /\ count is_run (events (fix_cmd stubborn_world ["catt"; "file.txt"]) [])
     = 2
  /\ count is_post (events (fix_cmd stubborn_world ["catt"; "file.txt"]) [])
     = 1.
Proof.
  assert (healthy : always_healthy stubborn_world)
    by (intros h u; reflexivity).
  assert (offers : always_offers stubborn_world)
    by (intros h u p; eexists _, _; split; reflexivity).
  assert (yes : always_yes stubborn_world) by (intros h q; reflexivity).
  assert (fails : always_fails stubborn_world) by (intros h c; reflexivity).
  exact (proj1 (proj2 (proj2 (one_repair_cycle stubborn_world))
                      healthy offers yes fails [])
               ["catt"; "file.txt"]).
Defined.

(** ** What counts as a failure *)

(** Finds an event in a list, looking past the pieces put in front. *)
Ltac in_later :=
  solve [repeat first [now left | right | apply in_or_app; right]].


Lemma execute_command_returns (W : World) (command : string)
      (h : list event) :
  exists out d,
    execute_command W command h = (Ret out, d)
    /\ count is_probe d = 0 /\ count asks_to_fix d = 0.
Proof.
  destruct (is_dangerous command) eqn:Hd.
  - rewrite (execute_command_dangerous _ _ _ Hd). cbv zeta.
    destruct (answer W _ confirm_text); eexists _, _;
      (split; [reflexivity |]); split; reflexivity.
  - rewrite (execute_command_plain _ _ _ Hd). cbv zeta.
    eexists _, _. split; [reflexivity |]. split; reflexivity.
Qed.

Lemma call_llm_api_probes (W : World) (prompt : string) (config : Config)
      (h : list event) :
  exists r tail,
    events (call_llm_api W prompt config) h = Get (probe_url config) r :: tail.
Proof.
  unfold events, call_llm_api. cbv zeta.
  rewrite run_bind, run_is_server_running.
  eexists _, _. reflexivity.
Qed.

Lemma fix_command_errors_probes (W : World) (e c : string) (h : list event) :
  exists r tail,
    events (fix_command_errors W e c) h
    = Get (probe_url (load_config W)) r :: tail.
Proof.
  unfold events, fix_command_errors. cbv zeta. rewrite run_bind.
  destruct (call_llm_api_probes W (repair_prompt e c) (load_config W) h)
    as (r & tail & E). unfold events in E.
  destruct (call_llm_api W (repair_prompt e c) (load_config W) h) as [o d].
  cbn [snd] in E. subst d.
  destruct o; eexists _, _; reflexivity.
Qed.

Lemma call_llm_api_never_asks (W : World) (prompt : string)
      (config : Config) (n : nat) :
  emits_at_most asks_to_fix n (call_llm_api W prompt config).
Proof. open_client. bound. Qed.

#[local] Hint Extern 1 (emits_at_most asks_to_fix _ (call_llm_api _ _ _)) =>
  apply call_llm_api_never_asks : bounds.

Lemma execute_command_never_asks (W : World) (command : string) (n : nat) :
  emits_at_most asks_to_fix n (execute_command W command).
Proof. open_executor. bound. Qed.

#[local] Hint Extern 1 (emits_at_most asks_to_fix _ (execute_command _ _)) =>
  apply execute_command_never_asks : bounds.

Lemma fix_command_errors_never_asks (W : World) (e c : string) (n : nat) :
  emits_at_most asks_to_fix n (fix_command_errors W e c).
Proof. open_repair. bound. Qed.

Lemma fix_cmd_consults_iff (W : World) (args : list string)
      (h : list event) :
  exists out,
    result (execute_command W (join " " args)) (fix_history h) = Ret out
    /\ (has_error_fix out = true <->
        existsb is_probe (events (fix_cmd W args) h) = true).
Proof.
  unfold result, events, fix_cmd, fix_history, echo. cbv zeta.
  rewrite run_bind, run_emit. cbv beta iota. cbn [fst snd].
  rewrite run_bind.
  match goal with |- context [execute_command W ?c ?h'] =>
    destruct (execute_command_returns W c h')
      as (out & d & -> & Hd & _) end.
  cbv beta iota. cbn [fst snd]. exists out. split; [reflexivity |].
  destruct (has_error_fix out) eqn:He.
  - split; [intros _ | reflexivity]. run.
    match goal with |- context [fix_command_errors W ?e ?c ?h'] =>
      destruct (fix_command_errors_probes W e c h') as (r & tail & E);
      unfold events in E;
      destruct (fix_command_errors W e c h') as [o d2];
      cbn [snd] in E; subst d2 end.
    destruct o as [[out2 |] | code]; [destruct (truthy out2) | |];
      run; rewrite !existsb_app; cbn [existsb is_probe];
      now rewrite ?orb_true_r.
  - split; [discriminate |]. run.
    rewrite !existsb_app, (count_none _ _ Hd). cbn. discriminate.
Qed.

Lemma generate_offers_iff (W : World) (description : string)
      (h : list event) (response : string) (sent : list event) :
  call_llm_api W (generate_prompt description) (load_config W)
               (h ++ [Echo "Generating command..."])%list
  = (Ret (Some response), sent) ->
  truthy response = true ->
  exists out,
    result (execute_command W (generated_command response))
           (generated_history h description response sent) = Ret out
    /\ (has_error out = true <->
        existsb asks_to_fix (events (generate W description true) h) = true).
Proof.
  intros Hcall Ht.
  assert (Hsent : count asks_to_fix sent = 0).
  { pose proof (call_llm_api_never_asks W (generate_prompt description)
                  (load_config W) 0
                  (h ++ [Echo "Generating command..."])%list)
      as Hq.
    unfold events in Hq. rewrite Hcall in Hq. cbn [snd] in Hq. lia. }
  unfold result, events, generate, generated_history. cbv zeta.
  unfold echo at 1.
  rewrite run_bind, run_emit. cbv beta iota. cbn [fst snd].
  rewrite run_bind, Hcall. cbv beta iota. cbn [fst snd]. rewrite Ht.
  unfold echo, confirm. run.
  rewrite <- !List.app_assoc. cbn [List.app].
  match goal with |- context [execute_command W ?c ?h'] =>
    destruct (execute_command_returns W c h')
      as (out & d & -> & _ & Hd) end.
  cbn [fst snd]. exists out. split; [reflexivity |]. run.
  destruct (has_error out) eqn:He.
  - split; [intros _ | reflexivity]. run.
    apply existsb_exists. eexists (Confirm fix_question _).
    split; [in_later | reflexivity].
  - split; [discriminate |]. run. cbn [existsb asks_to_fix orb].
    rewrite existsb_app, (count_none _ _ Hsent).
    cbn [existsb asks_to_fix orb].
    rewrite existsb_app, (count_none _ _ Hd). cbn. discriminate.
Qed.

(** What [execute_command] returns once it has started the process: the
    text made of what the process gave, and of nothing else. *)
Lemma execute_command_text (W : World) (command : string) (h : list event)
      (cmd : string) (r : run_result) :
  In (Run cmd r) (events (execute_command W command) h) ->
  cmd = command /\ result (execute_command W command) h = Ret (output_of r).
Proof.
  unfold events, result. destruct (is_dangerous command) eqn:Hd.
  - rewrite (execute_command_dangerous _ _ _ Hd). cbv zeta.
    destruct (answer W _ confirm_text); cbn [fst snd]; intros Hin;
      repeat (destruct Hin as [E | Hin]; [try discriminate E |]);
      try contradiction.
    injection E as <- <-. now split.
  - rewrite (execute_command_plain _ _ _ Hd). cbv zeta. cbn [fst snd].
    intros Hin.
    repeat (destruct Hin as [E | Hin]; [try discriminate E |]);
      try contradiction.
    injection E as <- <-. now split.
Qed.

(** C3, as the program has it: whether a command failed is read off the
    text [execute_command] returns, and off nothing else.  When the process
    has completed with output [stdout], error output [stderr] and exit
    status [rc], that text is [stdout], followed by a line "Errors:" and
    [stderr] when [stderr] is not empty: [rc] has no part in it.  When
    starting the process raised an exception, the text is the message of
    the exception; the text is always returned, never raised.  A text is a
    failure when, in lower case, it contains "error" or "not found".  On a
    failure, and only then, [fix] goes on to consult the model, and
    [generate --execute] goes on to ask whether it should. *)
Theorem failure_is_marker_text (W : World) :
  (forall command h, exists out, result (execute_command W command) h = Ret out)
  /\ (forall command h stdout stderr rc,
         In (Run command (Completed stdout stderr rc))
            (events (execute_command W command) h) ->
         result (execute_command W command) h =
         Ret (if truthy stderr
              then stdout ++ nl ++ "Errors:" ++ nl ++ stderr
              else stdout))
  /\ (forall command h msg,
         In (Run command (Raised msg))
            (events (execute_command W command) h) ->
         result (execute_command W command) h =
         Ret ("Error executing command: " ++ msg))
  /\ (forall out,
         has_error out = true <->
         (exists a b, lower out = a ++ "error" ++ b)
         \/ (exists a b, lower out = a ++ "not found" ++ b))
  /\ (forall out, has_error_fix out = has_error out)
  /\ (forall args h,
         exists out,
           result (execute_command W (join " " args)) (fix_history h) = Ret out
           /\ (has_error_fix out = true <->
               existsb is_probe (events (fix_cmd W args) h) = true))
  /\ (forall description h response sent,
         call_llm_api W (generate_prompt description) (load_config W)
                      (h ++ [Echo "Generating command..."])%list
         = (Ret (Some response), sent) ->
         truthy response = true ->
         exists out,
           result (execute_command W (generated_command response))
                  (generated_history h description response sent) = Ret out
           /\ (has_error out = true <->
               existsb asks_to_fix
                       (events (generate W description true) h) = true)).
Proof.
  repeat apply conj.
  - intros command h.
    destruct (execute_command_returns W command h) as (out & d & E & _).
    exists out. unfold result. now rewrite E.
  - intros command h stdout stderr rc Hin.
    now destruct (execute_command_text _ _ _ _ _ Hin) as [_ ->].
  - intros command h msg Hin.
    now destruct (execute_command_text _ _ _ _ _ Hin) as [_ ->].
  - apply has_error_iff.
  - apply has_error_fix_eq.
  - apply fix_cmd_consults_iff.
  - apply generate_offers_iff.
Qed.

Lemma failure_is_marker_text_witness :
  result (execute_command silent_failure_world "false") [] = Ret EmptyString
  /\ result (execute_command stubborn_world "catt file.txt") []
     = Ret (nl ++ "Errors:" ++ nl ++ "sh: 1: catt: not found")
  /\ result (execute_command unreachable_world "ls") []
     = Ret "Error executing command: unused"
  /\ exists out,
       result (execute_command stubborn_world
                 (generated_command stubborn_reply))
              (generated_history [] "show the file" stubborn_reply
                 (events (call_llm_api stubborn_world
                            (generate_prompt "show the file") no_config)
                         [Echo "Generating command..."])) = Ret out
       /\ (has_error out = true <->
           existsb asks_to_fix
                   (events (generate stubborn_world "show the file" true) [])
           = true).
Proof.
  assert (ran1 :
            In (Run "false" (Completed EmptyString EmptyString 1))
               (events (execute_command silent_failure_world "false") []))
    by (right; left; reflexivity).
  assert (ran2 :
            In (Run "catt file.txt"
                    (Completed EmptyString "sh: 1: catt: not found" 127))
               (events (execute_command stubborn_world "catt file.txt") []))
    by (right; left; reflexivity).
  assert (ran3 :
            In (Run "ls" (Raised "unused"))
               (events (execute_command unreachable_world "ls") []))
    by (right; left; reflexivity).
  assert (sent :
            call_llm_api stubborn_world (generate_prompt "show the file")
                         (load_config stubborn_world)
                         ([] ++ [Echo "Generating command..."])%list
            = (Ret (Some stubborn_reply),
               events (call_llm_api stubborn_world
                         (generate_prompt "show the file") no_config)
                      [Echo "Generating command..."]))
    by reflexivity.
  assert (nonempty : truthy stubborn_reply = true) by reflexivity.
  split; [| split; [| split]].
  - exact (proj1 (proj2 (failure_is_marker_text silent_failure_world))
                 "false" [] EmptyString EmptyString 1%Z ran1).
  - exact (proj1 (proj2 (failure_is_marker_text stubborn_world))
                 "catt file.txt" [] EmptyString "sh: 1: catt: not found"
                 127%Z ran2).
  - exact (proj1 (proj2 (proj2 (failure_is_marker_text unreachable_world)))
                 "ls" [] "unused" ran3).
  - exact (proj2 (proj2 (proj2 (proj2 (proj2 (proj2
             (failure_is_marker_text stubborn_world))))))
             "show the file" [] stubborn_reply _ sent nonempty).
Defined.

(** C3 does not hold as stated: the exit status plays no part.  A command
    that ends with a status other than 0 is not thereby taken for a
    failure: [fix false], where [false] prints nothing and ends with
    status 1, runs the command and never turns to the model. *)
Lemma exit_status_is_not_read :
  ~ forall (W : World) (args : list string) (h : list event)
           (stdout stderr : string) (rc : Z),
      In (Run (join " " args) (Completed stdout stderr rc))
         (events (fix_cmd W args) h) ->
      rc <> 0%Z ->
      existsb is_probe (events (fix_cmd W args) h) = true.
Proof.
  intros H.
  assert (ran :
            In (Run (join " " ["false"])
                    (Completed EmptyString EmptyString 1))
               (events (fix_cmd silent_failure_world ["false"]) []))
    by (right; right; left; reflexivity).
  specialize (H silent_failure_world ["false"] [] EmptyString EmptyString
                1%Z ran).
  discriminate H. discriminate.
Qed.

(** What [fix false] does in a world where [false] ends with status 1:
    the command is reported as a success and the model is not consulted. *)
Example fix_false_succeeds :
  events (fix_cmd silent_failure_world ["false"]) [] =
  [Echo "Attempting to execute command first to see if it has errors...";
   executing "false";
   Run "false" (Completed EmptyString EmptyString 1);
   Echo "Command executed successfully:";
   Echo EmptyString].
Proof. reflexivity. Qed.

(** ** Extracting a command from a response *)

(** *** Direct mode: [generate] *)

Lemma fenced_ends (tag body : string) :
  fenced tag body =
  String backtick ("``" ++ tag ++ nl ++ body ++ nl ++ "``") ++ str1 backtick.
Proof.
  unfold fenced. change "```" with ("``" ++ str1 backtick) at 2.
  change ("```" ++ tag ++ nl ++ body ++ nl ++ "``" ++ str1 backtick)
    with (String backtick
            ("``" ++ tag ++ nl ++ body ++ nl ++ "``" ++ str1 backtick)).
  cbn [String.append]. f_equal. f_equal. f_equal.
  now rewrite !str_app_assoc.
Qed.

Lemma strip_fenced (ws1 ws2 tag body : string) :
  all_space ws1 = true -> all_space ws2 = true ->
  strip (ws1 ++ fenced tag body ++ ws2) = fenced tag body.
Proof.
  intros H1 H2. rewrite fenced_ends. now apply strip_wrapped.
Qed.

Lemma fenced_lines (tag body : string) :
  contains nl tag = false ->
  split_nl (fenced tag body)
  = ("```" ++ tag) :: (split_nl body ++ ["```"])%list.
Proof.
  intros Ht. unfold fenced.
  replace ("```" ++ tag ++ nl ++ body ++ nl ++ "```")
    with (("```" ++ tag) ++ nl ++ (body ++ nl ++ "```"))
    by now rewrite !str_app_assoc.
  rewrite !split_nl_app.
  rewrite (split_nl_line ("```" ++ tag)).
  - reflexivity.
  - cbn [String.append]. rewrite !contains_eq. rewrite <- contains_eq.
    now rewrite Ht.
Qed.

Lemma slice_inner {A} (a z : A) (l : list A) :
  slice_1_m1 (a :: l ++ [z]) = l.
Proof. unfold slice_1_m1. cbn [tl]. apply removelast_last. Qed.

Lemma startswith_String (a : ascii) (p : string) (b : ascii) (s : string) :
  startswith (String a p) (String b s) = Ascii.eqb a b && startswith p s.
Proof. reflexivity. Qed.

Lemma length_drop (k : nat) (s : string) :
  String.length (drop k s) <= String.length s.
Proof.
  revert s; induction k as [|k IH]; intros [|c s]; cbn; try lia.
  specialize (IH s). lia.
Qed.

Lemma startswith_length (p s : string) :
  startswith p s = true -> String.length p <= String.length s.
Proof.
  intros H. apply startswith_inv in H. destruct H as [t ->].
  rewrite str_length_app. lia.
Qed.

(** Removing the fence markers of a text leaves none behind, and does not
    bring backticks to its front. *)
Lemma replace_fence_fuel (n : nat) (s : string) :
  String.length s <= n ->
  let r := replace_fuel n "```" EmptyString s in
  contains "```" r = false
  /\ (startswith "`" s = false -> startswith "`" r = false)
  /\ (startswith "``" s = false -> startswith "``" r = false).
Proof.
  revert s. induction n as [|n IH]; intros s Hn; cbv zeta.
  - destruct s; [| cbn in Hn; lia]. cbn. repeat split; reflexivity.
  - cbn [replace_fuel]. destruct (startswith "```" s) eqn:F.
    + cbn [String.append String.length].
      assert (Hd : String.length (drop 3 s) <= n).
      { destruct s as [|a [|b [|c s]]]; cbn in Hn |- *; lia. }
      destruct (IH _ Hd) as (Ha & _ & _).
      split; [exact Ha |].
      pose proof (startswith_length _ _ F) as Hlen.
      destruct s as [|a [|b [|c s]]]; try (cbn in Hlen; lia).
      rewrite !startswith_String in F.
      apply andb_prop in F. destruct F as [Fa F].
      apply andb_prop in F. destruct F as [Fb _].
      split; intros H; rewrite !startswith_String in H;
        rewrite ?Fa, ?Fb in H; discriminate H.
    + destruct s as [|c s]; [cbn; repeat split; reflexivity |].
      cbn in Hn. assert (Hs : String.length s <= n) by lia.
      destruct (IH _ Hs) as (Ha & Hb & Hc). cbv zeta in *.
      rewrite startswith_String in F.
      repeat split.
      * rewrite contains_eq, Ha, orb_false_r, startswith_String.
        destruct (Ascii.eqb "`" c); [| reflexivity].
        cbn [andb] in *. now apply Hc.
      * intros H. rewrite startswith_String in *.
        apply andb_false_iff in H. destruct H as [H | H]; [| discriminate].
        now rewrite H.
      * intros H. rewrite startswith_String in *.
        destruct (Ascii.eqb "`" c); [| reflexivity]. cbn [andb] in *.
        now apply Hb.
Qed.

Lemma replace_fence (s : string) :
  contains "```" (replace "```" EmptyString s) = false.
Proof. apply (replace_fence_fuel (String.length s) s). lia. Qed.

(** Whatever the response, the command [generate] makes of it holds no
    fence marker. *)
Lemma generated_command_no_fence (response : string) :
  contains "```" (generated_command response) = false.
Proof. unfold generated_command. apply contains_strip, replace_fence. Qed.

(** C7: a response that is one fenced block (white space around it
    allowed), opened by a fence line with a language tag and closed by a
    fence line, with no further fence in its body, is turned by [generate]
    into the body of the block: the tag is gone with the opening line, the
    result is stripped of surrounding white space and holds no fence
    marker. *)
Theorem direct_extraction_unwraps (ws1 ws2 tag body : string) :
  all_space ws1 = true -> all_space ws2 = true ->
  contains nl tag = false ->
  contains "```" body = false ->
  generated_command (ws1 ++ fenced tag body ++ ws2) = strip body
  /\ contains "```" (generated_command (ws1 ++ fenced tag body ++ ws2))
     = false.
Proof.
  intros H1 H2 Ht Hb.
  assert (E : generated_command (ws1 ++ fenced tag body ++ ws2) = strip body).
  { unfold generated_command. rewrite (strip_fenced _ _ _ _ H1 H2).
    assert (Hs : startswith "```" (fenced tag body) = true)
      by apply startswith_app.
    assert (He : endswith "```" (fenced tag body) = true).
    { unfold fenced.
      replace ("```" ++ tag ++ nl ++ body ++ nl ++ "```")
        with (("```" ++ tag ++ nl ++ body ++ nl) ++ "```")
        by now rewrite !str_app_assoc.
      apply endswith_app. }
    rewrite Hs, He. cbn [andb].
    rewrite (fenced_lines _ _ Ht), slice_inner, join_split.
    assert (Hbash : contains "```bash" body = false).
    { destruct (contains "```bash" body) eqn:C; [| reflexivity].
      apply (contains_longer "```" "bash") in C. congruence. }
    assert (Hshell : contains "```shell" body = false).
    { destruct (contains "```shell" body) eqn:C; [| reflexivity].
      apply (contains_longer "```" "shell") in C. congruence. }
    now rewrite (replace_absent _ _ _ Hbash), (replace_absent _ _ _ Hshell),
      (replace_absent _ _ _ Hb). }
  split; [exact E |]. rewrite E. now apply contains_strip.
Qed.

Lemma direct_extraction_unwraps_witness :
  generated_command ("  " ++ fenced "bash" ("ls -l" ++ nl) ++ nl)
  = strip ("ls -l" ++ nl)
  /\ contains "```"
       (generated_command ("  " ++ fenced "bash" ("ls -l" ++ nl) ++ nl))
     = false.
Proof.
  apply (direct_extraction_unwraps "  " nl "bash" ("ls -l" ++ nl));
    reflexivity.
Defined.

(** *** Scan mode: [fix_command_errors] *)

Local Open Scope list_scope.

Lemma scan_line_fence (b : bool) (acc : list string) (line : string) :
  is_fence line = true -> scan_line (b, acc) line = (negb b, acc).
Proof. unfold scan_line, is_fence. now intros ->. Qed.

Lemma scan_line_other (b : bool) (acc : list string) (line : string) :
  is_fence line = false ->
  scan_line (b, acc) line
  = (b, if b && is_command line then acc ++ [line] else acc).
Proof.
  unfold scan_line, is_fence, is_command. intros ->.
  rewrite andb_assoc. now destruct (_ && _ && _).
Qed.

(** The loop collects, in order, the command lines that stand inside
    fenced blocks. *)
Lemma scan_collects (lines : list string) (b : bool) (acc : list string) :
  snd (fold_left scan_line lines (b, acc))
  = acc ++ filter is_command
             (if b then inside_fence lines else outside_fence lines).
Proof.
  revert b acc. induction lines as [|line rest IH]; intros b acc.
  - destruct b; cbn; now rewrite List.app_nil_r.
  - cbn [fold_left]. destruct (is_fence line) eqn:F.
    + rewrite (scan_line_fence _ _ _ F), IH.
      destruct b; cbn [negb inside_fence outside_fence]; now rewrite F.
    + rewrite (scan_line_other _ _ _ F), IH.
      destruct b; cbn [andb inside_fence outside_fence]; rewrite F;
        [| reflexivity].
      cbn [filter]. destruct (is_command line); [| reflexivity].
      now rewrite <- List.app_assoc.
Qed.

Lemma command_lines_eq (response : string) :
  command_lines response
  = filter is_command (outside_fence (split_nl response)).
Proof. unfold command_lines. now rewrite scan_collects. Qed.

Lemma outside_fence_skip (pre rest : list string) :
  no_fence pre = true -> outside_fence (pre ++ rest) = outside_fence rest.
Proof.
  induction pre as [|line pre IH]; intros H; [reflexivity |].
  unfold no_fence in H. cbn [forallb] in H.
  apply andb_prop in H. destruct H as [Hl Hp].
  apply negb_true_iff in Hl. cbn [List.app outside_fence].
  rewrite Hl. apply IH. exact Hp.
Qed.

Lemma inside_fence_take (block rest : list string) :
  no_fence block = true ->
  inside_fence (block ++ rest) = block ++ inside_fence rest.
Proof.
  induction block as [|line block IH]; intros H; [reflexivity |].
  unfold no_fence in H. cbn [forallb] in H.
  apply andb_prop in H. destruct H as [Hl Hp].
  apply negb_true_iff in Hl. cbn [List.app inside_fence].
  rewrite Hl. rewrite IH; [reflexivity | exact Hp].
Qed.

(** One closed block: its lines are what stands inside fences. *)
Lemma outside_fence_one_block (pre block post : list string)
      (opening closing : string) :
  no_fence pre = true -> is_fence opening = true ->
  no_fence block = true -> is_fence closing = true ->
  no_fence post = true ->
  outside_fence (pre ++ opening :: block ++ closing :: post) = block.
Proof.
  intros Hpre Ho Hb Hc Hpost.
  rewrite (outside_fence_skip _ _ Hpre). cbn [outside_fence]. rewrite Ho.
  rewrite (inside_fence_take _ _ Hb). cbn [inside_fence]. rewrite Hc.
  rewrite <- (List.app_nil_r post), (outside_fence_skip _ _ Hpost).
  cbn [outside_fence]. apply List.app_nil_r.
Qed.

(** What the loop does, in terms of its own test [is_command]:
    [fix_command_errors] takes as candidate the first line that stands
    inside a fenced block, is not blank and does not have [#] as its very
    first character.  When the response has one fenced block with exactly
    one such line, that line is the candidate; when no fenced block has
    such a line there is no candidate; when there are several, the first is
    the candidate and the later ones are dropped. *)
Lemma scan_extraction (response : string) :
  (forall pre block post opening closing line,
      split_nl response = pre ++ opening :: block ++ closing :: post ->
      no_fence pre = true -> is_fence opening = true ->
      no_fence block = true -> is_fence closing = true ->
      no_fence post = true ->
      filter is_command block = [line] ->
      fixed_command response = Some line)
  /\ (filter is_command (outside_fence (split_nl response)) = [] ->
      fixed_command response = None)
  /\ (forall line later,
         filter is_command (outside_fence (split_nl response))
         = line :: later ->
         fixed_command response = Some line).
Proof.
  unfold fixed_command. rewrite command_lines_eq. repeat apply conj.
  - intros pre block post opening closing line E Hpre Ho Hb Hc Hpost Hl.
    now rewrite E, outside_fence_one_block, Hl.
  - now intros ->.
  - now intros line later ->.
Qed.

Lemma scan_extraction_witness :
  fixed_command
    ("Try this:" ++ nl ++ "```bash" ++ nl ++ "# the right name" ++ nl
     ++ "cat file.txt" ++ nl ++ "```" ++ nl ++ "It should work.")%string
  = Some "cat file.txt"
  /\ fixed_command
       ("Nothing to run:" ++ nl ++ "```" ++ nl ++ "# no idea" ++ nl
        ++ "```")%string
     = None
  /\ fixed_command
       ("```sh" ++ nl ++ "cd /tmp" ++ nl ++ "ls" ++ nl ++ "```" ++ nl
        ++ "```" ++ nl ++ "pwd" ++ nl ++ "```")%string
     = Some "cd /tmp".
Proof.
  repeat apply conj.
  - apply (proj1 (scan_extraction _)
             ["Try this:"] ["# the right name"; "cat file.txt"]
             ["It should work."] "```bash" "```" "cat file.txt");
      reflexivity.
  - apply (proj1 (proj2 (scan_extraction _))). reflexivity.
  - apply (proj2 (proj2 (scan_extraction _)) "cd /tmp" ["ls"; "pwd"]).
    reflexivity.
Defined.

Local Open Scope string_scope.

(** The test of the loop and the plain reading of "neither blank nor a
    comment" part on the indented comments, and only there. *)
Lemma is_command_split (line : string) :
  is_command line =
  is_plain_command line || (is_comment line && negb (startswith "#" line)).
Proof.
  unfold is_command, is_plain_command, is_comment, strip.
  destruct (startswith "#" line) eqn:Hs.
  - destruct line as [|c t]; [discriminate |].
    rewrite startswith_String in Hs. apply andb_prop in Hs.
    destruct Hs as [Hc _]. apply Ascii.eqb_eq in Hc. subst c.
    cbn [lstrip]. change (isspace "#") with false. cbv iota.
    rewrite startswith_String, Ascii.eqb_refl. cbn [andb startswith negb].
    now rewrite andb_false_r.
  - cbn [negb]. rewrite !andb_true_r.
    destruct (startswith "#" (lstrip line)) eqn:Hc; cbn [negb].
    + rewrite andb_false_r. cbn [orb].
      destruct (lstrip line) as [|c t]; [discriminate |].
      rewrite startswith_String in Hc. apply andb_prop in Hc.
      destruct Hc as [Hc _]. apply Ascii.eqb_eq in Hc. subst c.
      cbn [rstrip]. change (isspace "#") with false.
      now destruct (rstrip t).
    + now rewrite andb_true_r, orb_false_r.
Qed.

(** C8: the candidate is meant to be the first line of a fenced block that
    is neither blank nor a comment, and a comment that begins in the first
    column is indeed passed over.  An indented comment is not: the loop
    looks for [#] in the line as it stands, while it looks for a fence and
    for a blank line in the line stripped of its white space.  So the
    comment is taken as the candidate, ahead of the one command that
    follows it, and also where the block holds nothing else; and it is the
    comment that [fix_command_errors] offers to run. *)
Theorem indented_comment_is_taken :
  (forall line,
      is_command line =
      is_plain_command line
      || (is_comment line && negb (startswith "#" line)))
  /\ fixed_command
       ("```bash" ++ nl ++ "# list the files" ++ nl ++ "ls" ++ nl ++ "```")
     = Some "ls"
  /\ filter is_plain_command
            (outside_fence (split_nl indented_comment_reply)) = ["ls"]
  /\ fixed_command indented_comment_reply = Some "  # list the files"
  /\ filter is_plain_command
            (outside_fence (split_nl comment_only_reply)) = []
  /\ fixed_command comment_only_reply = Some "  # nothing to run"
  /\ fix_command_errors commenting_world "lss: not found" "lss" []
     = (Ret (Some EmptyString),
        [Get "http://localhost:8080/health" (Some 200%Z);
         PostChat "http://localhost:8080/v1/chat/completions"
                  (repair_prompt "lss: not found" "lss")
                  (Reply 200 (Content indented_comment_reply));
         Echo (nl ++ indented_comment_reply ++ nl);
         Confirm
           "Would you like to execute the fixed command? [  # list the files]"
           true;
         executing "  # list the files";
         Run "  # list the files" (Completed EmptyString EmptyString 0)]).
Proof.
  split; [exact is_command_split |]. repeat split.
Qed.

(** * Further properties *)

(** ** More on server supervision *)

Local Open Scope list_scope.

#[local] Hint Extern 1 (emits_at_most _ _ (wait_for_server _ _ _ _)) =>
  apply wait_for_server_quiet; intros; reflexivity : bounds.
#[local] Hint Extern 1 (emits_at_most is_run _ (call_llm_api _ _ _)) =>
  apply call_llm_api_runs : bounds.
#[local] Hint Extern 1 (emits_at_most is_run _ (execute_command _ _)) =>
  apply (bound_weaken _ 1); [apply execute_command_runs | lia] : bounds.

(** As [bound], for a sequence whose first step may take all that is
    allowed. *)
Ltac bound_first :=
  intros; cbv zeta;
  match goal with
  | |- emits_at_most _ ?t (bind _ _) =>
      apply (bound_bind _ t 0); [ | intros ? | lia]
  end.

Lemma wait_for_server_probes (W : World) (k : nat) (host : string)
      (port : Z) :
  emits_at_most is_probe k (wait_for_server W k host port)
  /\ emits_at_most is_sleep k (wait_for_server W k host port).
Proof.
  induction k as [|k [IHp IHs]]; cbn [wait_for_server].
  - split; apply bound_ret.
  - unfold is_server_running, echo. split.
    + apply (bound_bind _ 1 k); [bound | intros up | lia].
      destruct up; [bound |].
      apply (bound_bind _ 0 k); [bound | intros _ | lia].
      apply (bound_bind _ 0 k); [bound | intros _ | lia]. exact IHp.
    + apply (bound_bind _ 0 (S k)); [bound | intros up | lia].
      destruct up; [bound |].
      apply (bound_bind _ 0 (S k)); [bound | intros _ | lia].
      apply (bound_bind _ 1 k); [bound | intros _ | lia]. exact IHs.
Qed.

#[local] Hint Extern 1 (emits_at_most is_probe _ (wait_for_server _ 10 _ _)) =>
  apply (bound_weaken _ 10); [apply wait_for_server_probes | lia] : bounds.
#[local] Hint Extern 1 (emits_at_most is_sleep _ (wait_for_server _ 10 _ _)) =>
  apply (bound_weaken _ 10); [apply wait_for_server_probes | lia] : bounds.

Lemma start_server_effort (W : World) (config : Config) :
  emits_at_most starts_server 3 (start_server W config)
  /\ emits_at_most is_write 1 (start_server W config).
Proof. split; unfold start_server, echo; bound. Qed.

#[local] Hint Extern 1 (emits_at_most starts_server _ (start_server _ _)) =>
  apply (bound_weaken _ 3); [apply start_server_effort | lia] : bounds.
#[local] Hint Extern 1 (emits_at_most is_write _ (start_server _ _)) =>
  apply (bound_weaken _ 1); [apply start_server_effort | lia] : bounds.

(** The steps of [call_llm_api] when the first probe fails: [n] of the
    events allowed go to [start_server], [k] to the wait. *)
Ltac bound_client n k :=
  unfold call_llm_api, is_server_running, post_chat, echo; cbv zeta;
  let up := fresh "up" in
  let started := fresh "started" in
  apply (bound_bind _ 0 (n + k)); [bound | intros up | lia];
  destruct (negb up); [| bound];
  apply (bound_bind _ 0 (n + k)); [bound | intros _ | lia];
  apply (bound_bind _ n k); [bound | intros _ | lia];
  apply (bound_bind _ k 0); [bound | intros started | lia];
  destruct started; bound.

Lemma call_llm_api_quiet (W : World) (prompt : string) (config : Config)
      (n : nat) :
  emits_at_most is_confirm n (call_llm_api W prompt config)
  /\ emits_at_most is_save n (call_llm_api W prompt config).
Proof. split; open_client; bound. Qed.

#[local] Hint Extern 1 (emits_at_most is_confirm _ (call_llm_api _ _ _)) =>
  apply call_llm_api_quiet : bounds.
#[local] Hint Extern 1 (emits_at_most is_save _ (call_llm_api _ _ _)) =>
  apply call_llm_api_quiet : bounds.

(** X7: the effort of one call of [call_llm_api] is bounded in every
    world: at most 11 health probes, 10 sleeps of one second, one launcher
    script written and started, and one request to the model; it never
    starts a user's command, asks a question or writes the history. *)
Theorem call_llm_api_effort (W : World) (prompt : string) (config : Config) :
  emits_at_most is_probe 11 (call_llm_api W prompt config)
  /\ emits_at_most is_sleep 10 (call_llm_api W prompt config)
  /\ emits_at_most is_write 1 (call_llm_api W prompt config)
  /\ emits_at_most starts_server 3 (call_llm_api W prompt config)
  /\ emits_at_most is_post 1 (call_llm_api W prompt config)
  /\ emits_at_most is_run 0 (call_llm_api W prompt config)
  /\ emits_at_most is_confirm 0 (call_llm_api W prompt config)
  /\ emits_at_most is_save 0 (call_llm_api W prompt config).
Proof.
  repeat apply conj.
  - unfold call_llm_api, is_server_running, post_chat, echo; cbv zeta.
    apply (bound_bind _ 1 10); [bound | intros up | lia].
    destruct (negb up); [| bound].
    apply (bound_bind _ 0 10); [bound | intros _ | lia].
    apply (bound_bind _ 0 10); [unfold start_server, echo; bound | intros _ | lia].
    apply (bound_bind _ 10 0); [bound | intros started | lia].
    destruct started; bound.
  - unfold call_llm_api, is_server_running, post_chat, echo; cbv zeta.
    apply (bound_bind _ 0 10); [bound | intros up | lia].
    destruct (negb up); [| bound].
    apply (bound_bind _ 0 10); [bound | intros _ | lia].
    apply (bound_bind _ 0 10); [unfold start_server, echo; bound | intros _ | lia].
    apply (bound_bind _ 10 0); [bound | intros started | lia].
    destruct started; bound.
  - bound_client 1 0.
  - bound_client 3 0.
  - apply call_llm_api_posts.
  - apply call_llm_api_runs.
  - apply call_llm_api_quiet.
  - apply call_llm_api_quiet.
Qed.

Lemma run_start_server (W : World) (config : Config) (h : list event) :
  start_server W config h =
  if path_exists W h (get (model_path config) MODEL_PATH)
  then (Ret tt, launch W config)
  else (Exit 1%Z, no_model config).
Proof.
  unfold start_server, echo, launch, no_model, launcher_of. cbv zeta. run.
  destruct (path_exists W h (get (model_path config) MODEL_PATH));
    cbn [negb]; run; reflexivity.
Qed.

Lemma unhealthy (W : World) (h : list event) (u : string) :
  health W h u <> Some 200%Z ->
  match health W h u with
  | Some status => (status =? 200)%Z
  | None => false
  end = false.
Proof.
  intros H. destruct (health W h u) as [s |]; [| reflexivity].
  destruct (Z.eqb_spec s 200); [subst; contradiction | reflexivity].
Qed.

Lemma wait_for_server_in_vain (W : World) (host : string) (port : Z) :
  never_healthy W ->
  forall k h,
  exists d,
    wait_for_server W k host port h = (Ret false, d)
    /\ count is_probe d = k /\ count is_sleep d = k
    /\ count is_write d = 0 /\ count is_post d = 0.
Proof.
  intros Hn. induction k as [|k IH]; intros h; cbn [wait_for_server].
  - exists []. repeat split.
  - rewrite run_bind, run_is_server_running, (unhealthy _ _ _ (Hn _ _)).
    unfold echo. run.
    match goal with |- context [wait_for_server W k host port ?h'] =>
      destruct (IH h') as (d & -> & Hp & Hs & Hw & Hc) end.
    cbn [fst snd]. eexists. split; [reflexivity |].
    rewrite !count_app, Hp, Hs, Hw, Hc. repeat split.
Qed.

Lemma wait_for_server_success (W : World) (host : string) (port : Z)
      (k : nat) (h d : list event) :
  wait_for_server W k host port h = (Ret true, d) ->
  exists d', d = (d' ++ [Get (health_url host port) (Some 200%Z)])%list.
Proof.
  revert h d. induction k as [|k IH]; intros h d; cbn [wait_for_server].
  - rewrite run_ret. discriminate.
  - rewrite run_bind, run_is_server_running.
    destruct (health W h (health_url host port)) as [s |] eqn:Hh.
    + destruct (Z.eqb_spec s 200) as [-> | Hs].
      * run. intros [= <-]. now exists [].
      * unfold echo. run.
        match goal with |- context [wait_for_server W k host port ?h'] =>
          destruct (wait_for_server W k host port h') as [o d0] eqn:E end.
        cbn [fst snd]. intros [= -> <-].
        destruct (IH _ _ E) as [d' ->].
        eexists (_ :: _ :: _ :: d')%list. reflexivity.
    + unfold echo. run.
      match goal with |- context [wait_for_server W k host port ?h'] =>
        destruct (wait_for_server W k host port h') as [o d0] eqn:E end.
      cbn [fst snd]. intros [= -> <-].
      destruct (IH _ _ E) as [d' ->].
      eexists (_ :: _ :: _ :: d')%list. reflexivity.
Qed.

(** [call_llm_api] when the first probe fails. *)
Lemma call_llm_api_cold (W : World) (prompt : string) (config : Config)
      (h : list event) :
  health W h (probe_url config) <> Some 200%Z ->
  call_llm_api W prompt config h =
  let h1 := (h ++ cold_start W config h)%list in
  if path_exists W h1 (get (model_path config) MODEL_PATH)
  then
    let h2 := (h1 ++ launch W config)%list in
    let waited := wait_for_server W 10 (api_host config) (api_port config) h2 in
    match waited with
    | (Ret true, d) =>
        let sent := post_chat W (api_host config) (api_port config) prompt
                              (h2 ++ d)%list in
        (fst sent, (cold_start W config h ++ launch W config ++ d ++ snd sent)%list)
    | (Ret false, d) =>
        (Ret None,
         (cold_start W config h ++ launch W config ++ d
          ++ [Echo "Failed to start server."])%list)
    | (Exit c, d) =>
        (Exit c, (cold_start W config h ++ launch W config ++ d)%list)
    end
  else (Exit 1%Z, (cold_start W config h ++ no_model config)%list).
Proof.
  intros Hh. unfold call_llm_api. cbv zeta.
  fold (api_host config) (api_port config).
  rewrite run_bind, run_is_server_running. fold (probe_url config).
  rewrite (unhealthy _ _ _ Hh). cbn [negb]. unfold echo.
  rewrite run_bind, run_emit. cbv beta iota. cbn [fst snd].
  rewrite run_bind, run_start_server.
  rewrite <- List.app_assoc. cbn [List.app]. fold (cold_start W config h).
  destruct (path_exists W (h ++ cold_start W config h)
                        (get (model_path config) MODEL_PATH));
    [| reflexivity].
  rewrite run_bind.
  destruct (wait_for_server W 10 (api_host config) (api_port config)
              ((h ++ cold_start W config h) ++ launch W config))
    as [[[|] | c] d]; cbn [fst snd]; run; reflexivity.
Qed.

(** X8: when no server ever answers but the model file is there,
    [call_llm_api] starts the server once, probes 11 times in all with 10
    sleeps of one second between the last ten, and gives up: it prints
    "Failed to start server.", sends no request and returns [None]. *)
Theorem call_llm_api_gives_up (W : World) (prompt : string)
        (config : Config) (h : list event) :
  never_healthy W ->
  (forall h' p, path_exists W h' p = true) ->
  exists waited,
    call_llm_api W prompt config h
    = (Ret None,
       cold_start W config h ++ launch W config ++ waited
       ++ [Echo "Failed to start server."])
    /\ count is_probe waited = 10 /\ count is_sleep waited = 10
    /\ count is_write waited = 0 /\ count is_post waited = 0
    /\ count is_probe (events (call_llm_api W prompt config) h) = 11.
Proof.
  intros Hn Hp. rewrite (call_llm_api_cold _ _ _ _ (Hn _ _)). cbv zeta.
  rewrite Hp.
  destruct (wait_for_server_in_vain W (api_host config) (api_port config)
              Hn 10 ((h ++ cold_start W config h) ++ launch W config))
    as (d & E & Hpr & Hs & Hw & Hc).
  unfold events.
  rewrite (call_llm_api_cold _ _ _ _ (Hn _ _)). cbv zeta.
  rewrite Hp, E. cbn [snd]. exists d. split; [reflexivity |].
  repeat (split; [assumption |]).
  rewrite !count_app, Hpr. reflexivity.
Qed.

Lemma call_llm_api_gives_up_witness :
  exists waited,
    call_llm_api (dead_world true) "ls" no_config []
    = (Ret None,
       cold_start (dead_world true) no_config []
       ++ launch (dead_world true) no_config ++ waited
       ++ [Echo "Failed to start server."])
    /\ count is_probe waited = 10 /\ count is_sleep waited = 10
    /\ count is_write waited = 0 /\ count is_post waited = 0
    /\ count is_probe (events (call_llm_api (dead_world true) "ls" no_config)
                              []) = 11.
Proof.
  apply (call_llm_api_gives_up (dead_world true) "ls" no_config []).
  - intros h u. discriminate.
  - intros h p. reflexivity.
Defined.

(** X9: when the first probe fails and the model file is missing,
    [call_llm_api] ends the program with exit status 1 after the message
    "Error: Model not found at ...": nothing is written or started, no
    request is sent, and the subcommands that called it ([generate],
    [explain], the repair of [fix]) end with it. *)
Theorem missing_model_ends_the_program (W : World) :
  never_healthy W ->
  (forall h' p, path_exists W h' p = false) ->
  (forall prompt config h,
      call_llm_api W prompt config h
      = (Exit 1%Z, cold_start W config h ++ no_model config))
  /\ (forall e c h, result (fix_command_errors W e c) h = Exit 1%Z)
  /\ (forall command h, result (explain W command) h = Exit 1%Z)
  /\ (forall description execute h,
         result (generate W description execute) h = Exit 1%Z
         /\ count is_save (events (generate W description execute) h) = 0
         /\ count is_run (events (generate W description execute) h) = 0).
Proof.
  intros Hn Hp.
  assert (Hcall : forall prompt config h,
             call_llm_api W prompt config h
             = (Exit 1%Z, cold_start W config h ++ no_model config)).
  { intros prompt config h.
    rewrite (call_llm_api_cold _ _ _ _ (Hn _ _)). cbv zeta.
    now rewrite Hp. }
  split; [exact Hcall |]. repeat apply conj.
  - intros e c h. unfold result, fix_command_errors. cbv zeta.
    now rewrite run_bind, Hcall.
  - intros command h. unfold result, explain, echo. cbv zeta.
    rewrite run_bind, run_emit. cbv beta iota. cbn [fst snd].
    now rewrite run_bind, Hcall.
  - intros description execute h. unfold result, events, generate, echo.
    cbv zeta. rewrite run_bind, run_emit. cbv beta iota. cbn [fst snd].
    rewrite run_bind, Hcall. repeat split.
Qed.

Lemma missing_model_ends_the_program_witness :
  call_llm_api (dead_world false) "ls" no_config []
  = (Exit 1%Z,
     cold_start (dead_world false) no_config [] ++ no_model no_config).
Proof.
  assert (down : never_healthy (dead_world false))
    by (intros h u; discriminate).
  assert (gone : forall h' p, path_exists (dead_world false) h' p = false)
    by (intros h p; reflexivity).
  exact (proj1 (missing_model_ends_the_program (dead_world false) down gone)
               "ls" no_config []).
Defined.

Lemma wait_for_server_events (W : World) (k : nat) (host : string)
      (port : Z) (h : list event) (e : event) :
  In e (snd (wait_for_server W k host port h)) ->
  is_post e = false /\ is_write e = false.
Proof.
  intros Hin. split.
  - apply (count_zero_in _ (snd (wait_for_server W k host port h))); [| exact Hin].
    pose proof (wait_for_server_quiet is_post W k host port 0
                  (fun _ _ => eq_refl) (fun _ => eq_refl) eq_refl h) as Hq.
    unfold events in Hq. lia.
  - apply (count_zero_in _ (snd (wait_for_server W k host port h))); [| exact Hin].
    pose proof (wait_for_server_quiet is_write W k host port 0
                  (fun _ _ => eq_refl) (fun _ => eq_refl) eq_refl h) as Hq.
    unfold events in Hq. lia.
Qed.

Lemma post_chat_events (W : World) (host : string) (port : Z)
      (prompt : string) (h : list event) :
  exists r tail,
    snd (post_chat W host port prompt h)
    = PostChat (chat_url host port) prompt r :: tail
    /\ forall e, In e tail -> is_post e = false /\ is_write e = false.
Proof.
  rewrite run_post_chat. cbv zeta.
  destruct (chat W h (chat_url host port) prompt) as [status b | err];
    [destruct (status =? 200)%Z; [destruct b |] |];
    cbn [snd]; eexists _, _; (split; [reflexivity |]);
    intros e Hin; cbn [In] in Hin;
    repeat (destruct Hin as [<- | Hin]; [split; reflexivity |]);
    contradiction.
Qed.

(** Whether the first probe of [call_llm_api] is answered with 200. *)
Lemma first_probe_dec (W : World) (config : Config) (h : list event) :
  {health W h (probe_url config) = Some 200%Z}
  + {health W h (probe_url config) <> Some 200%Z}.
Proof.
  destruct (health W h (probe_url config)) as [s |];
    [| right; discriminate].
  destruct (Z.eq_dec s 200) as [-> | Hs]; [left; reflexivity |].
  right. intros [= E]. contradiction.
Qed.

(** X10: [call_llm_api] sends its request only to a server that has just
    answered a health probe with 200: in its trace the request comes
    right after such a probe, and it goes to the completions address of
    the configured host and port with the caller's prompt. *)
Theorem request_follows_healthy_probe (W : World) (prompt : string)
        (config : Config) (h : list event) (u p : string) (r : http_reply) :
  In (PostChat u p r) (events (call_llm_api W prompt config) h) ->
  u = completions_url config /\ p = prompt
  /\ exists before after,
      events (call_llm_api W prompt config) h
      = before ++ Get (probe_url config) (Some 200%Z)
               :: PostChat u p r :: after.
Proof.
  unfold events.
  destruct (first_probe_dec W config h) as [Hh | Hh].
  - rewrite (call_llm_api_healthy _ _ _ _ Hh). cbv zeta. cbn [snd].
    destruct (post_chat_events W (api_host config) (api_port config) prompt
                (h ++ [Get (probe_url config) (Some 200%Z)]))
      as (r0 & tail & -> & Htail).
    intros [E | [E | Hin]]; [discriminate | |].
    + injection E as <- <- <-. repeat split. now exists [], tail.
    + apply Htail in Hin. destruct Hin. discriminate.
  - rewrite (call_llm_api_cold _ _ _ _ Hh). cbv zeta.
    destruct (path_exists W _ _).
    + destruct (wait_for_server W 10 _ _ _) as [[[|] | c] d] eqn:Ew;
        cbn [snd]; intros Hin;
        repeat (apply in_app_or in Hin; destruct Hin as [Hin | Hin]);
        try (now (cbn in Hin; intuition discriminate));
        try (apply (f_equal snd) in Ew; cbn [snd] in Ew; subst d;
             apply wait_for_server_events in Hin; destruct Hin;
             discriminate).
      destruct (wait_for_server_success _ _ _ _ _ _ Ew) as [d' ->].
      destruct (post_chat_events W (api_host config) (api_port config) prompt
                  (((h ++ cold_start W config h) ++ launch W config)
                   ++ d' ++ [Get (health_url (api_host config)
                                             (api_port config))
                                 (Some 200%Z)]))
        as (r0 & tail & Es & Htail).
      rewrite Es in *. destruct Hin as [E | Hin].
      * injection E as <- <- <-. repeat split.
        exists (cold_start W config h ++ launch W config ++ d'), tail.
        rewrite <- !List.app_assoc. reflexivity.
      * apply Htail in Hin. destruct Hin. discriminate.
    + cbn [snd]. intros Hin. cbn in Hin. intuition discriminate.
Qed.

Lemma request_follows_healthy_probe_witness :
  completions_url no_config = completions_url no_config
  /\ "ls" = "ls"
  /\ exists before after,
      events (call_llm_api slow_world "ls" no_config) []
      = before ++ Get (probe_url no_config) (Some 200%Z)
               :: PostChat (completions_url no_config) "ls"
                    (Reply 200 (Content "ls")) :: after.
Proof.
  apply (request_follows_healthy_probe slow_world "ls" no_config []).
  vm_compute. repeat (first [left; reflexivity | right]).
Defined.

(** X11: the server that [call_llm_api] starts is told the port that the
    client probes and posts to, for every configuration; it is told the
    client's host as well when the configuration names one.  When the
    key [server_host] is missing the two defaults differ: the server is
    bound to 127.0.0.1 while the client calls localhost. *)
Theorem launcher_matches_client (W : World) (prompt : string)
        (config : Config) (h : list event) (path : string) (l : launcher) :
  In (WriteLauncher path l) (events (call_llm_api W prompt config) h) ->
  path = launcher_path W
  /\ l = launcher_of W config
  /\ l_port l = api_port config
  /\ (forall host, server_host config = Some host ->
                   l_host l = host /\ api_host config = host)
  /\ (server_host config = None ->
      l_host l = "127.0.0.1" /\ api_host config = "localhost").
Proof.
  unfold events. intros Hin.
  assert (E : WriteLauncher path l
              = WriteLauncher (launcher_path W) (launcher_of W config)).
  { destruct (first_probe_dec W config h) as [Hh | Hh].
    - rewrite (call_llm_api_healthy _ _ _ _ Hh) in Hin. cbv zeta in Hin.
      cbn [snd] in Hin.
      destruct (post_chat_events W (api_host config) (api_port config) prompt
                  (h ++ [Get (probe_url config) (Some 200%Z)]))
        as (r0 & tail & Es & Htail).
      rewrite Es in Hin. destruct Hin as [E | [E | Hin]]; try discriminate.
      apply Htail in Hin. destruct Hin. discriminate.
    - rewrite (call_llm_api_cold _ _ _ _ Hh) in Hin. cbv zeta in Hin.
      destruct (path_exists W _ _).
      + assert (Hl : forall e, In e (launch W config) -> is_write e = true ->
                               e = WriteLauncher (launcher_path W)
                                     (launcher_of W config)).
        { intros e He Hw. cbn in He.
          repeat (destruct He as [<- | He]; [try discriminate Hw |]);
            [reflexivity | contradiction]. }
        destruct (wait_for_server W 10 _ _ _) as [[[|] | c] d] eqn:Ew;
          cbn [snd] in Hin;
          repeat (apply in_app_or in Hin; destruct Hin as [Hin | Hin]);
          try (now apply Hl);
          try (now (cbn in Hin; intuition discriminate));
          try (apply (f_equal snd) in Ew; cbn [snd] in Ew; subst d;
               apply wait_for_server_events in Hin; destruct Hin;
               discriminate).
        destruct (post_chat_events W (api_host config) (api_port config)
                    prompt
                    (((h ++ cold_start W config h) ++ launch W config) ++ d))
          as (r0 & tail & Es & Htail).
        rewrite Es in Hin. destruct Hin as [E | Hin]; [discriminate |].
        apply Htail in Hin. destruct Hin. discriminate.
      + cbn [snd] in Hin. cbn in Hin. intuition discriminate. }
  injection E as -> ->. split; [reflexivity |]. split; [reflexivity |].
  split; [reflexivity |]. unfold launcher_of, api_host. cbn [l_host].
  split.
  - intros host ->. split; reflexivity.
  - intros ->. split; reflexivity.
Qed.

Lemma launcher_matches_client_witness :
  "/home/user/.config/aibuddy/start_server.sh" = launcher_path slow_world
  /\ launcher_of slow_world no_config = launcher_of slow_world no_config
  /\ l_port (launcher_of slow_world no_config) = api_port no_config
  /\ (forall host, server_host no_config = Some host ->
                   l_host (launcher_of slow_world no_config) = host
                   /\ api_host no_config = host)
  /\ (server_host no_config = None ->
      l_host (launcher_of slow_world no_config) = "127.0.0.1"
      /\ api_host no_config = "localhost").
Proof.
  apply (launcher_matches_client slow_world "ls" no_config []).
  vm_compute. repeat (first [left; reflexivity | right]).
Defined.

(** X12: the [server] subcommand asks one question and starts nothing
    before the answer, and the answer is the one the user gives to that
    question.  On a no it ends there.  On a yes it goes through
    [start_server], and does so in the same way whether a server was
    answering or not: a restart stops nothing, it starts one more
    server. *)
Theorem server_asks_before_starting (W : World) (h : list event) :
  exists banner question ans after,
    events (server W) h
    = Get (probe_url (load_config W))
          (health W h (probe_url (load_config W)))
      :: Echo banner :: Confirm question ans :: after
    /\ ans = answer W (h ++ [Get (probe_url (load_config W))
                                (health W h (probe_url (load_config W)));
                            Echo banner]) question
    /\ (question = restart_question <->
        health W h (probe_url (load_config W)) = Some 200%Z)
    /\ (question = start_question <->
        health W h (probe_url (load_config W)) <> Some 200%Z)
    /\ (ans = false -> after = [] /\ result (server W) h = Ret tt)
    /\ (ans = true ->
        exists said,
          (said = [] \/ said = [Echo "Restarting server..."])
          /\ ((after = said ++ launch W (load_config W)
               /\ result (server W) h = Ret tt)
              \/ (after = said ++ no_model (load_config W)
                  /\ result (server W) h = Exit 1%Z))).
Proof.
  unfold events, result, server. cbv zeta.
  fold (api_host (load_config W)) (api_port (load_config W)).
  rewrite run_bind, run_is_server_running. fold (probe_url (load_config W)).
  destruct (first_probe_dec W (load_config W) h) as [Hh | Hh].
  - rewrite Hh. cbn [Z.eqb Pos.eqb]. unfold echo, confirm. run.
    eexists _, restart_question, _, _. split; [reflexivity |].
    split; [now rewrite <- List.app_assoc |].
    split; [tauto |]. split; [split; [discriminate | congruence] |].
    destruct (answer W _ restart_question); run.
    + split; [discriminate |]. intros _. exists [Echo "Restarting server..."].
      split; [now right |]. rewrite run_start_server.
      destruct (path_exists W _ _); cbn [fst snd]; [left | right];
        now rewrite ?List.app_nil_r.
    + split; [| discriminate]. intros _. now split.
  - rewrite (unhealthy _ _ _ Hh). unfold echo, confirm. run.
    eexists _, start_question, _, _. split; [reflexivity |].
    split; [now rewrite <- List.app_assoc |].
    split; [split; [discriminate | contradiction] |]. split; [tauto |].
    destruct (answer W _ start_question); run.
    + split; [discriminate |]. intros _. exists [].
      split; [now left |]. rewrite run_start_server.
      destruct (path_exists W _ _); cbn [fst snd]; [left | right];
        now rewrite ?List.app_nil_r.
    + split; [| discriminate]. intros _. now split.
Qed.

Lemma server_asks_before_starting_witness :
  exists banner question ans after,
    events (server declining_world) []
    = Get (probe_url (load_config declining_world))
          (health declining_world [] (probe_url (load_config declining_world)))
      :: Echo banner :: Confirm question ans :: after
    /\ ans = false /\ after = [] /\ question = restart_question
    /\ result (server declining_world) [] = Ret tt.
Proof.
  destruct (server_asks_before_starting declining_world [])
    as (banner & question & ans & after & E & A & Hq & _ & Hno & _).
  exists banner, question, ans, after.
  split; [exact E |]. split; [exact A |].
  split; [exact (proj1 (Hno A)) |].
  split; [now apply Hq | exact (proj2 (Hno A))].
Defined.

(** ** More on the flows *)

Local Open Scope list_scope.

#[local] Hint Extern 1 (emits_at_most is_confirm _ (call_llm_api _ _ _)) =>
  apply call_llm_api_quiet : bounds.
#[local] Hint Extern 1 (emits_at_most is_save _ (call_llm_api _ _ _)) =>
  apply call_llm_api_quiet : bounds.
#[local] Hint Extern 1 (emits_at_most is_run _ (call_llm_api _ _ _)) =>
  apply call_llm_api_runs : bounds.
#[local] Hint Extern 1 (emits_at_most is_post _ (call_llm_api _ _ _)) =>
  apply (bound_weaken _ 1); [apply call_llm_api_posts | lia] : bounds.

Lemma execute_command_saves_nothing (W : World) (command : string)
      (n : nat) :
  emits_at_most is_save n (execute_command W command).
Proof. open_executor. bound. Qed.

Lemma fix_command_errors_saves_nothing (W : World) (e c : string) (n : nat) :
  emits_at_most is_save n (fix_command_errors W e c).
Proof. unfold fix_command_errors, execute_command, echo, confirm. bound. Qed.

#[local] Hint Extern 1 (emits_at_most is_save _ (execute_command _ _)) =>
  apply execute_command_saves_nothing : bounds.
#[local] Hint Extern 1 (emits_at_most is_save _ (fix_command_errors _ _ _)) =>
  apply fix_command_errors_saves_nothing : bounds.

(** X13: [explain] only talks to the model: it starts no command, asks no
    question and writes no history; it sends at most one request, made of
    the words of the command joined by blanks, and prints the answer, or
    "Failed to analyze command." when there is none. *)
Theorem explain_only_asks_the_model (W : World) (command : list string) :
  emits_at_most is_run 0 (explain W command)
  /\ emits_at_most is_confirm 0 (explain W command)
  /\ emits_at_most is_save 0 (explain W command)
  /\ emits_at_most is_post 1 (explain W command)
  /\ forall h,
      let asked :=
        call_llm_api W (explain_prompt (join " " command)) (load_config W)
                     (h ++ [Echo "Analyzing command..."]) in
      match fst asked with
      | Ret (Some (String c response)) =>
          explain W command h
          = (Ret tt,
             Echo "Analyzing command..." :: snd asked
             ++ [Echo (nl ++ String c response)%string])
      | Ret _ =>
          explain W command h
          = (Ret tt,
             Echo "Analyzing command..." :: snd asked
             ++ [Echo "Failed to analyze command."])
      | Exit code =>
          explain W command h
          = (Exit code, Echo "Analyzing command..." :: snd asked)
      end.
Proof.
  repeat apply conj; try (unfold explain, echo; bound).
  intros h. cbv zeta. unfold explain, echo. cbv zeta.
  rewrite run_bind, run_emit. cbv beta iota. cbn [fst snd].
  rewrite run_bind.
  destruct (call_llm_api W _ _ _) as [[[[|c response] |] | code] sent];
    cbn [fst snd truthy]; run; reflexivity.
Qed.

Ltac open_generate := unfold generate, echo, confirm; cbv beta iota zeta.

Lemma generate_saves_once (W : World) (description : string)
      (execute : bool) :
  emits_at_most is_save 1 (generate W description execute).
Proof. open_generate. bound. Qed.

Lemma fix_cmd_saves_nothing (W : World) (command : list string) (n : nat) :
  emits_at_most is_save n (fix_cmd W command).
Proof. unfold fix_cmd, echo. bound. Qed.

Lemma explain_saves_nothing (W : World) (command : list string) (n : nat) :
  emits_at_most is_save n (explain W command).
Proof. unfold explain, echo. bound. Qed.

(** X14: without [--execute], [generate] starts no command and asks no
    question, and sends the model one request at most; with or without
    it, one run of [generate] adds at most one entry to the history. *)
Theorem generate_without_execute_is_safe (W : World) (description : string) :
  emits_at_most is_run 0 (generate W description false)
  /\ emits_at_most is_confirm 0 (generate W description false)
  /\ emits_at_most is_post 1 (generate W description false)
  /\ forall execute,
      emits_at_most is_save 1 (generate W description execute).
Proof.
  repeat apply conj; try apply generate_saves_once; open_generate; bound.
Qed.

(** X15: once the model has answered with a non-empty text, [generate]
    shows the command made of it and records it in the history before
    anything else happens; without [--execute] it stops there, with it
    the execution of that very command comes next.  When the model gave
    no answer, nothing is recorded and nothing is run. *)
Theorem generate_records_before_running (W : World) (description : string)
        (execute : bool) (h : list event) :
  let asked :=
    call_llm_api W (generate_prompt description) (load_config W)
                 (h ++ [generating]) in
  match fst asked with
  | Ret (Some (String c response)) =>
      let said := generating :: snd asked
                  ++ recorded description (String c response) in
      exists after,
        events (generate W description execute) h = said ++ after
        /\ count is_run said = 0
        /\ (execute = false ->
            after = [] /\ result (generate W description execute) h = Ret tt)
        /\ (execute = true ->
            exists later,
              after
              = events (execute_command W
                          (generated_command (String c response)))
                       (h ++ said)
                ++ later)
  | Ret _ =>
      generate W description execute h
      = (Ret tt, generating :: snd asked
                 ++ [Echo "Failed to generate command."])
  | Exit code =>
      generate W description execute h = (Exit code, generating :: snd asked)
  end.
Proof.
  cbv zeta. unfold events, result, generate, generating, recorded, echo.
  cbv zeta. rewrite run_bind, run_emit. cbv beta iota. cbn [fst snd].
  rewrite run_bind.
  pose proof (call_llm_api_runs W (generate_prompt description)
                (load_config W) 0 (h ++ [Echo "Generating command..."]))
    as Hquiet.
  unfold events in Hquiet.
  destruct (call_llm_api W _ _ _) as [[[[|c response] |] | code] sent];
    cbn [fst snd truthy] in *; try (run; reflexivity).
  do 3 (rewrite run_bind, run_emit; cbv beta iota; cbn [fst snd]).
  rewrite <- !List.app_assoc. cbn [List.app].
  assert (Hsaid : count is_run
                    (Echo "Generating command..."
                     :: sent
                     ++ [Echo (nl ++ "Generated Command:")%string;
                         Echo (generated_command (String c response) ++ nl)%string;
                         SaveHistory description
                           (generated_command (String c response))]) = 0).
  { change (?x :: sent ++ ?y) with ([x] ++ sent ++ y).
    rewrite !count_app.
    change (count is_run [Echo "Generating command..."]) with 0.
    change (count is_run [Echo _; Echo _; SaveHistory _ _]) with 0.
    lia. }
  destruct execute.
  - rewrite run_bind.
    destruct (execute_command W _ _) as [[out | code] d] eqn:E.
    + eexists (d ++ _). split.
      * change (?x :: sent ++ ?y ++ ?z) with ((x :: sent) ++ y ++ z).
        rewrite <- !List.app_assoc. cbn [List.app fst snd]. reflexivity.
      * split; [exact Hsaid |]. split; [discriminate |]. intros _.
        eexists. reflexivity.
    + exists d. split.
      * change (?x :: sent ++ ?y ++ ?z) with ((x :: sent) ++ y ++ z).
        rewrite <- !List.app_assoc. cbn [List.app fst snd]. reflexivity.
      * split; [exact Hsaid |]. split; [discriminate |]. intros _.
        exists []. now rewrite List.app_nil_r.
  - rewrite run_ret. cbn [fst snd]. exists []. split.
    + now rewrite !List.app_nil_r.
    + split; [exact Hsaid |]. split; [now split | discriminate].
Qed.

Lemma generate_records_before_running_witness :
  exists after,
    events (generate stubborn_world "show the file" false) []
    = (generating
       :: events (call_llm_api stubborn_world
                    (generate_prompt "show the file") no_config)
                 [generating]
       ++ recorded "show the file" stubborn_reply)
      ++ after
    /\ after = [] /\ result (generate stubborn_world "show the file" false) []
                    = Ret tt.
Proof.
  destruct (generate_records_before_running stubborn_world "show the file"
              false []) as (after & E & _ & Hno & _).
  exists after. split; [exact E | exact (Hno eq_refl)].
Defined.

(** The process [execute_command] starts is the command it was given, and
    for a command of the denylist only after a yes. *)
Lemma execute_command_runs_its_command (W : World) (command : string)
      (h : list event) (cmd : string) (r : run_result) :
  In (Run cmd r) (snd (execute_command W command h)) ->
  cmd = command
  /\ fst (execute_command W command h) = Ret (output_of r)
  /\ (is_dangerous command = true ->
      In (Confirm confirm_text true) (snd (execute_command W command h))).
Proof.
  destruct (is_dangerous command) eqn:Hd.
  - rewrite (execute_command_dangerous _ _ _ Hd). cbv zeta.
    destruct (answer W _ confirm_text); cbn [fst snd In]; intros Hin;
      repeat (destruct Hin as [E | Hin]; [try discriminate E |]);
      try contradiction.
    injection E as <- <-. repeat split. intros _. right; left. reflexivity.
  - rewrite (execute_command_plain _ _ _ Hd). cbv zeta. cbn [fst snd In].
    intros Hin.
    repeat (destruct Hin as [E | Hin]; [try discriminate E |]);
      try contradiction.
    injection E as <- <-. repeat split. discriminate.
Qed.



Lemma error_prefix_has_error (msg : string) :
  has_error ("Error executing command: " ++ msg)%string = true.
Proof.
  unfold has_error. rewrite lower_app.
  rewrite (contains_app_l "error" (lower "Error executing command: "));
    reflexivity.
Qed.

(** X17: when the process cannot be started at all and [subprocess.run]
    raises, [execute_command] still returns: it returns the text
    "Error executing command: " followed by the message, which both
    callers take for a failure whatever the message. *)
Theorem exception_is_a_failure (W : World) (command : string)
        (h : list event) (msg : string) :
  In (Run command (Raised msg)) (events (execute_command W command) h) ->
  result (execute_command W command) h
  = Ret ("Error executing command: " ++ msg)%string
  /\ has_error ("Error executing command: " ++ msg)%string = true
  /\ has_error_fix ("Error executing command: " ++ msg)%string = true.
Proof.
  unfold events, result. intros Hin.
  destruct (execute_command_runs_its_command _ _ _ _ _ Hin) as (_ & E & _).
  split; [exact E |]. rewrite has_error_fix_eq.
  split; apply error_prefix_has_error.
Qed.

Lemma exception_is_a_failure_witness :
  result (execute_command slow_world "ls") []
  = Ret ("Error executing command: " ++ "embedded null byte")%string
  /\ has_error ("Error executing command: " ++ "embedded null byte")%string
     = true
  /\ has_error_fix
       ("Error executing command: " ++ "embedded null byte")%string = true.
Proof.
  apply (exception_is_a_failure slow_world "ls" [] "embedded null byte").
  vm_compute. right; left. reflexivity.
Defined.

(** X18: declining the warning in [fix] is not taken for a failure: for
    every command of the denylist whose confirmation is declined, [fix]
    reports "Command executed successfully:" followed by the cancellation
    text, starts no process and does not consult the model. *)
Theorem declined_fix_reports_success (W : World) (command : list string)
        (h : list event) :
  mentions_danger_word (join " " command) ->
  answer W (fix_history h ++ [executing (join " " command)]) confirm_text
  = false ->
  fix_cmd W command h
  = (Ret tt,
     [Echo "Attempting to execute command first to see if it has errors...";
      executing (join " " command);
      Confirm confirm_text false;
      Echo "Command executed successfully:";
      Echo cancelled_text]).
Proof.
  intros Hm Ha. apply is_dangerous_iff in Hm.
  unfold fix_cmd, echo. cbv zeta.
  rewrite run_bind, run_emit. cbv beta iota. cbn [fst snd].
  rewrite run_bind, (execute_command_dangerous _ _ _ Hm). cbv zeta.
  fold (fix_history h). rewrite Ha. cbv beta iota. cbn [fst snd].
  change (has_error_fix cancelled_text) with false. cbv iota. run.
  reflexivity.
Qed.

Lemma declined_fix_reports_success_witness :
  fix_cmd declining_world ["rm"; "-rf"; "/tmp/x"] []
  = (Ret tt,
     [Echo "Attempting to execute command first to see if it has errors...";
      executing (join " " ["rm"; "-rf"; "/tmp/x"]);
      Confirm confirm_text false;
      Echo "Command executed successfully:";
      Echo cancelled_text]).
Proof.
  apply (declined_fix_reports_success declining_world ["rm"; "-rf"; "/tmp/x"]
           []).
  - apply is_dangerous_iff. reflexivity.
  - reflexivity.
Defined.

(** X19: the warning cannot be shaken off by wrapping: a text that holds a
    command of the denylist anywhere inside it is itself on the denylist,
    whatever comes before and after; and the parts of a text that is not
    on the denylist are not on it either. *)
Theorem danger_survives_wrapping (command before after : string) :
  (is_dangerous command = true ->
   is_dangerous (before ++ command ++ after)%string = true)
  /\ (is_dangerous (before ++ after)%string = false ->
      is_dangerous before = false /\ is_dangerous after = false).
Proof.
  assert (Hup : forall a c b, is_dangerous c = true ->
                              is_dangerous (a ++ c ++ b)%string = true).
  { intros a c b Hc. apply is_dangerous_iff in Hc.
    destruct Hc as (w & x & y & Hw & ->). apply is_dangerous_iff.
    exists w, (a ++ x)%string, (y ++ b)%string. split; [exact Hw |].
    now rewrite !str_app_assoc. }
  split; [apply Hup |]. intros H. split.
  - destruct (is_dangerous before) eqn:E; [| reflexivity].
    pose proof (Hup EmptyString before after E) as H'.
    change (EmptyString ++ before ++ after)%string
      with (before ++ after)%string in H'. congruence.
  - destruct (is_dangerous after) eqn:E; [| reflexivity].
    pose proof (Hup before after EmptyString E) as H'.
    rewrite str_app_nil_r in H'. congruence.
Qed.

Lemma danger_survives_wrapping_witness :
  is_dangerous ("sh -c '" ++ "rm -rf /tmp/x" ++ "'")%string = true
  /\ (is_dangerous "ls" = false /\ is_dangerous " -l" = false).
Proof.
  split.
  - apply (proj1 (danger_survives_wrapping "rm -rf /tmp/x" "sh -c '" "'")).
    reflexivity.
  - apply (proj2 (danger_survives_wrapping EmptyString "ls" " -l")).
    reflexivity.
Defined.

(** X24: a command that succeeds is still taken for a failure when its
    output mentions one of the markers: a command not on the denylist
    that ends with status 0, writes nothing to standard error and prints
    a text containing "error" or "not found" in any case is reported by
    [fix] as "Command had errors:" and sent to the model for repair. *)
Theorem marker_in_output_counts_as_failure (W : World)
        (command : list string) (h : list event) (stdout : string) :
  is_dangerous (join " " command) = false ->
  shell W (fix_history h ++ [executing (join " " command)])
        (join " " command)
  = Completed stdout EmptyString 0 ->
  has_error stdout = true ->
  exists probed rest,
    events (fix_cmd W command) h
    = [Echo "Attempting to execute command first to see if it has errors...";
       executing (join " " command);
       Run (join " " command) (Completed stdout EmptyString 0);
       Echo "Command had errors:";
       Echo stdout;
       Echo (nl ++ "Attempting to fix the command...")%string;
       Get (probe_url (load_config W)) probed]
      ++ rest.
Proof.
  intros Hd Hs He. unfold events, fix_cmd, echo. cbv zeta.
  rewrite run_bind, run_emit. cbv beta iota. cbn [fst snd].
  rewrite run_bind, (execute_command_plain _ _ _ Hd). cbv zeta.
  fold (fix_history h). rewrite Hs. cbv beta iota. cbn [fst snd output_of].
  change (combined_output stdout EmptyString) with stdout.
  rewrite has_error_fix_eq, He.
  do 3 (rewrite run_bind, run_emit; cbv beta iota; cbn [fst snd]).
  rewrite run_bind.
  match goal with |- context [fix_command_errors W ?e ?c ?h'] =>
    destruct (fix_command_errors_probes W e c h') as (r & tail & E);
    unfold events in E;
    destruct (fix_command_errors W e c h') as [o d2];
    cbn [snd] in E; subst d2 end.
  exists r.
  destruct o as [[out2 |] | code]; [destruct (truthy out2) | |];
    cbn [fst snd]; eexists; cbn [List.app]; reflexivity.
Qed.

Lemma marker_in_output_counts_as_failure_witness :
  exists probed rest,
    events (fix_cmd chatty_world ["make"; "check"]) []
    = [Echo "Attempting to execute command first to see if it has errors...";
       executing (join " " ["make"; "check"]);
       Run (join " " ["make"; "check"])
           (Completed "0 errors, 0 warnings" EmptyString 0);
       Echo "Command had errors:";
       Echo "0 errors, 0 warnings";
       Echo (nl ++ "Attempting to fix the command...")%string;
       Get (probe_url (load_config chatty_world)) probed]
      ++ rest.
Proof.
  apply (marker_in_output_counts_as_failure chatty_world ["make"; "check"]
           [] "0 errors, 0 warnings"); reflexivity.
Defined.

(** ** More on extraction *)

Local Open Scope string_scope.

Lemma lstrip_head (s : string) :
  match lstrip s with
  | EmptyString => True
  | String c _ => isspace c = false
  end.
Proof.
  induction s as [|c s IH]; cbn [lstrip]; [exact I |].
  destruct (isspace c) eqn:E; [exact IH | exact E].
Qed.

Lemma rstrip_idem (s : string) : rstrip (rstrip s) = rstrip s.
Proof.
  induction s as [|c s IH]; [reflexivity |]. cbn [rstrip].
  destruct (rstrip s) as [|x r] eqn:E.
  - destruct (isspace c) eqn:Hc; [reflexivity |].
    unfold str1. cbn [rstrip]. now rewrite Hc.
  - cbn [rstrip]. cbn [rstrip] in IH. destruct (rstrip r) as [|y r'] eqn:Er.
    + destruct (isspace x) eqn:Hx; [discriminate IH |].
      now rewrite IH.
    + now rewrite IH.
Qed.

Lemma rstrip_keeps_head (c : ascii) (s : string) :
  isspace c = false -> exists r, rstrip (String c s) = String c r.
Proof.
  intros Hc. cbn [rstrip]. destruct (rstrip s) as [|x r].
  - rewrite Hc. now exists EmptyString.
  - now exists (String x r).
Qed.

(** [strip] applied twice is [strip]. *)
Lemma strip_idem (s : string) : strip (strip s) = strip s.
Proof.
  unfold strip. pose proof (lstrip_head s) as Hh.
  destruct (lstrip s) as [|c t]; [reflexivity |].
  destruct (rstrip_keeps_head c t Hh) as [r E]. rewrite E.
  cbn [lstrip]. rewrite Hh, <- E. apply rstrip_idem.
Qed.

Lemma startswith_contains (w s : string) :
  startswith w s = true -> contains w s = true.
Proof. intros H. rewrite contains_eq, H. reflexivity. Qed.

Lemma generated_command_plain (response : string) :
  contains "```" response = false ->
  generated_command response = strip response.
Proof.
  intros H. pose proof (contains_strip _ _ H) as Hs.
  unfold generated_command.
  rewrite (contains_startswith _ _ Hs). cbn [andb].
  assert (Hbash : contains "```bash" (strip response) = false).
  { destruct (contains "```bash" (strip response)) eqn:C; [| reflexivity].
    apply (contains_longer "```" "bash") in C. congruence. }
  assert (Hshell : contains "```shell" (strip response) = false).
  { destruct (contains "```shell" (strip response)) eqn:C; [| reflexivity].
    apply (contains_longer "```" "shell") in C. congruence. }
  rewrite (replace_absent _ _ _ Hbash), (replace_absent _ _ _ Hshell),
    (replace_absent _ _ _ Hs).
  apply strip_idem.
Qed.

(** X20: whatever the model answered, the command that [generate] makes of
    it holds no fence marker and has no white space at either end; making
    a command of that command again changes nothing. *)
Theorem generated_command_is_clean (response : string) :
  contains "```" (generated_command response) = false
  /\ strip (generated_command response) = generated_command response
  /\ generated_command (generated_command response)
     = generated_command response.
Proof.
  assert (Hf : contains "```" (generated_command response) = false)
    by apply generated_command_no_fence.
  assert (Hs : strip (generated_command response)
               = generated_command response)
    by (unfold generated_command; apply strip_idem).
  split; [exact Hf |]. split; [exact Hs |].
  now rewrite (generated_command_plain _ Hf).
Qed.

(** X21: an answer without any fence marker is taken as the command as it
    is, multi-line or not, stripped of the white space around it. *)
Theorem plain_answer_is_the_command (response : string) :
  contains "```" response = false ->
  generated_command response = strip response.
Proof. apply generated_command_plain. Qed.

Lemma plain_answer_is_the_command_witness :
  generated_command ("  ls -l | sort" ++ nl) = strip ("  ls -l | sort" ++ nl).
Proof.
  apply (plain_answer_is_the_command ("  ls -l | sort" ++ nl)). reflexivity.
Defined.

Lemma fence_lines_sound (lines : list string) (line : string) :
  (In line (outside_fence lines) -> In line lines /\ is_fence line = false)
  /\ (In line (inside_fence lines) -> In line lines /\ is_fence line = false).
Proof.
  induction lines as [|l rest [IHo IHi]]; [split; intros [] |].
  cbn [outside_fence inside_fence]. destruct (is_fence l) eqn:F; split;
    intros Hin.
  - destruct (IHi Hin). split; [now right | assumption].
  - destruct (IHo Hin). split; [now right | assumption].
  - destruct (IHo Hin). split; [now right | assumption].
  - destruct Hin as [<- | Hin]; [split; [now left | exact F] |].
    destruct (IHi Hin). split; [now right | assumption].
Qed.

Lemma split_nl_pieces (s line : string) :
  In line (split_nl s) -> contains nl line = false.
Proof.
  revert line. induction s as [|c s IH]; intros line.
  - intros [<- | []]. reflexivity.
  - rewrite split_nl_String. destruct (Ascii.eqb c nl_char) eqn:E.
    + intros [<- | Hin]; [reflexivity | now apply IH].
    + destruct (split_nl_cons s) as (x & t & Hs). rewrite Hs in *.
      intros [<- | Hin].
      * rewrite contains_eq.
        change (startswith nl (String c x)) with (Ascii.eqb nl_char c && true).
        rewrite Ascii.eqb_sym, E. cbn [andb orb]. apply IH. now left.
      * apply IH. now right.
Qed.

Lemma outside_fence_none (lines : list string) :
  no_fence lines = true -> outside_fence lines = [].
Proof.
  intros H. rewrite <- (List.app_nil_r lines).
  now rewrite outside_fence_skip.
Qed.

(** X22: the candidate that [fix_command_errors] takes from a response is
    one of its lines, as it stands (white space included): a single line,
    not blank, not beginning with [#], and not a fence line. *)
Theorem candidate_is_a_line_of_the_response (response line : string) :
  fixed_command response = Some line ->
  In line (split_nl response)
  /\ contains nl line = false
  /\ truthy (strip line) = true
  /\ startswith "#" line = false
  /\ is_fence line = false.
Proof.
  unfold fixed_command. rewrite command_lines_eq.
  destruct (filter is_command (outside_fence (split_nl response)))
    as [|l rest] eqn:E; [discriminate |].
  intros [= ->].
  assert (Hin : In line (filter is_command
                           (outside_fence (split_nl response))))
    by (rewrite E; now left).
  apply filter_In in Hin. destruct Hin as [Hin Hc].
  apply (proj1 (fence_lines_sound _ _)) in Hin. destruct Hin as [Hin Hf].
  unfold is_command in Hc. apply andb_prop in Hc. destruct Hc as [Ht Hh].
  apply negb_true_iff in Hh.
  repeat split; try assumption. now apply (split_nl_pieces response).
Qed.

Lemma candidate_is_a_line_of_the_response_witness :
  In "  cat file.txt " (split_nl ("```" ++ nl ++ "  cat file.txt " ++ nl ++ "```"))
  /\ contains nl "  cat file.txt " = false
  /\ truthy (strip "  cat file.txt ") = true
  /\ startswith "#" "  cat file.txt " = false
  /\ is_fence "  cat file.txt " = false.
Proof.
  apply (candidate_is_a_line_of_the_response
           ("```" ++ nl ++ "  cat file.txt " ++ nl ++ "```")).
  reflexivity.
Defined.

(** X23: a response without a fence line gives no candidate, however
    plainly it spells out a command.  After the request to the model,
    [fix_command_errors] then does one thing at most: it prints the
    response, between two line breaks, when the response is not empty; an
    empty response is not printed.  It asks nothing, runs nothing and
    returns [None]. *)
Theorem unfenced_answer_offers_nothing (W : World) (e c : string)
        (h : list event) (response : string) :
  no_fence (split_nl response) = true ->
  fixed_command response = None
  /\ (fst (call_llm_api W (repair_prompt e c) (load_config W) h)
      = Ret (Some response) ->
      result (fix_command_errors W e c) h = Ret None
      /\ events (fix_command_errors W e c) h
         = (events (call_llm_api W (repair_prompt e c) (load_config W)) h
            ++ (if truthy response then [Echo (nl ++ response ++ nl)%string]
                else []))%list
      /\ count is_run (events (fix_command_errors W e c) h) = 0
      /\ count is_confirm (events (fix_command_errors W e c) h) = 0).
Proof.
  intros Hn.
  assert (Hf : fixed_command response = None).
  { unfold fixed_command. rewrite command_lines_eq.
    now rewrite (outside_fence_none _ Hn). }
  split; [exact Hf |]. intros Hcall.
  unfold result, events, fix_command_errors. cbv zeta. rewrite run_bind.
  pose proof (call_llm_api_runs W (repair_prompt e c) (load_config W) 0 h)
    as Hr.
  pose proof (proj1 (call_llm_api_quiet W (repair_prompt e c)
                       (load_config W) 0) h) as Hq.
  unfold events in Hr, Hq.
  destruct (call_llm_api W _ _ _) as [o sent]. cbn [fst snd] in *. subst o.
  rewrite Hf. unfold echo.
  unfold count in *.
  destruct (truthy response); run; rewrite ?List.app_nil_r;
    repeat split; rewrite ?filter_app, ?List.length_app;
    cbn [filter is_run is_confirm List.length]; lia.
Qed.

Lemma unfenced_answer_offers_nothing_witness :
  fixed_command prose_reply = None
  /\ result (fix_command_errors prose_world "not found" "catt file.txt") []
     = Ret None
  /\ events (fix_command_errors prose_world "not found" "catt file.txt") []
     = [Get "http://localhost:8080/health" (Some 200%Z);
        PostChat "http://localhost:8080/v1/chat/completions"
                 (repair_prompt "not found" "catt file.txt")
                 (Reply 200 (Content prose_reply));
        Echo (nl ++ prose_reply ++ nl)%string]
  /\ count is_run
       (events (fix_command_errors prose_world "not found" "catt file.txt")
               []) = 0
  /\ count is_confirm
       (events (fix_command_errors prose_world "not found" "catt file.txt")
               []) = 0.
Proof.
  destruct (unfenced_answer_offers_nothing prose_world "not found"
              "catt file.txt" [] prose_reply eq_refl) as [Hnone Hflow].
  split; [exact Hnone | exact (Hflow eq_refl)].
Defined.

(** ** The history and configuration files *)

Module StoreFacts.

Import Store.

Local Open Scope list_scope.

Section Files.

Context {Time : Type}.

Implicit Types (history : list (HistoryEntry Time)) (fs : Files Time).

Lemma length_last_n {A} (n : nat) (l : list A) :
  List.length (last_n n l) = Nat.min n (List.length l).
Proof. unfold last_n. rewrite length_skipn. lia. Qed.

Lemma last_n_all {A} (n : nat) (l : list A) :
  List.length l <= n -> last_n n l = l.
Proof.
  intros H. unfold last_n.
  replace (List.length l - n) with 0 by lia. reflexivity.
Qed.

Lemma last_n_suffix {A} (n : nat) (l : list A) :
  l = firstn (List.length l - n) l ++ last_n n l.
Proof. unfold last_n. symmetry. apply firstn_skipn. Qed.

Lemma last_n_snoc {A} (n : nat) (l : list A) (x : A) :
  last_n (S n) (l ++ [x]) = last_n n l ++ [x].
Proof.
  unfold last_n. rewrite List.length_app. cbn [List.length].
  replace (List.length l + 1 - S n) with (List.length l - n) by lia.
  rewrite skipn_app.
  replace (List.length l - n - List.length l) with 0 by lia.
  reflexivity.
Qed.

Lemma appended_eq history (d c : string) (now : Time) :
  appended history d c now
  = last_n 99 history
    ++ [{| description := d; command := c; timestamp := now |}].
Proof.
  unfold appended. cbv zeta. rewrite List.length_app. cbn [List.length].
  destruct (Nat.ltb_spec 100 (List.length history + 1)).
  - apply last_n_snoc.
  - rewrite (last_n_all 99 history) by lia. reflexivity.
Qed.

Lemma history_lines_app (i : nat) (a b : list (HistoryEntry Time)) :
  history_lines i (a ++ b)
  = history_lines i a ++ history_lines (i + List.length a) b.
Proof.
  revert i. induction a as [|e a IH]; intros i; cbn [history_lines List.app].
  - now rewrite Nat.add_0_r.
  - rewrite IH. cbn [List.length].
    now replace (S i + List.length a) with (i + S (List.length a)) by lia.
Qed.

Lemma length_history_lines (i : nat) (entries : list (HistoryEntry Time)) :
  List.length (history_lines i entries) = 3 * List.length entries.
Proof.
  revert i. induction entries as [|e l IH]; intros i; cbn [history_lines];
    [reflexivity |].
  cbn [List.length]. rewrite IH. lia.
Qed.

(** X1: [save_history] appends the new entry and keeps the history at 100
    entries at most: what is stored is the last 99 entries of what was
    there, followed by the new one; nothing is dropped before the history
    is full, and from then on each new entry drops the oldest.  The
    configuration file is not touched. *)
Theorem save_history_caps fs history (d c : string) (now : Time) :
  history_file fs = Some history ->
  let entry := {| description := d; command := c; timestamp := now |} in
  exists stored,
    save_history d c now fs
    = Some {| config_file := config_file fs; history_file := Some stored |}
    /\ stored = last_n 99 history ++ [entry]
    /\ List.length stored = Nat.min (S (List.length history)) 100
    /\ (List.length history < 100 -> stored = history ++ [entry])
    /\ (List.length history = 100 -> stored = tl history ++ [entry]).
Proof.
  intros Hf. cbv zeta. unfold save_history. rewrite Hf.
  eexists. split; [reflexivity |]. rewrite appended_eq.
  split; [reflexivity |]. split; [| split].
  - rewrite List.length_app, length_last_n. cbn [List.length]. lia.
  - intros H. rewrite last_n_all by lia. reflexivity.
  - intros H. unfold last_n. rewrite H. cbn [Nat.sub skipn].
    destruct history; reflexivity.
Qed.

End Files.

Lemma save_history_caps_witness :
  let entry :=
    {| description := "list files"; command := "ls"; timestamp := 7 |} in
  exists stored,
    save_history "list files" "ls" 7 sample_files
    = Some {| config_file := config_file sample_files;
              history_file := Some stored |}
    /\ stored = last_n 99 [pwd_entry] ++ [entry]
    /\ List.length stored = Nat.min (S (List.length [pwd_entry])) 100
    /\ (List.length [pwd_entry] < 100 -> stored = [pwd_entry] ++ [entry])
    /\ (List.length [pwd_entry] = 100 -> stored = tl [pwd_entry] ++ [entry]).
Proof.
  apply (save_history_caps sample_files [pwd_entry] "list files" "ls" 7).
  reflexivity.
Defined.

Section Display.

Context {Time : Type}.

Implicit Types (entries : list (HistoryEntry Time)) (fs : Files Time).

Lemma last_n_exact {A} (older recent : list A) :
  last_n (List.length recent) (older ++ recent) = recent.
Proof.
  unfold last_n. rewrite List.length_app.
  replace (List.length older + List.length recent - List.length recent)
    with (List.length older + 0) by lia.
  rewrite skipn_app, Nat.add_0_r, skipn_all.
  now replace (List.length older - List.length older) with 0 by lia.
Qed.

(** X2: [history] shows the ten most recent entries and no older one,
    oldest first and numbered from 1, in three lines each under one
    heading line; a history of ten entries or fewer is shown whole; an
    empty history gives the single line "No command history found."; a
    missing history file is an exception. *)
Theorem history_shows_last_ten fs :
  (history_file fs = None -> history fs = None)
  /\ (history_file fs = Some [] ->
      history fs = Some ["No command history found."])
  /\ (forall entries,
         history_file fs = Some entries -> entries <> [] ->
         List.length entries <= 10 ->
         history fs = Some ("Command History:" :: history_lines 1 entries))
  /\ (forall older recent,
         history_file fs = Some (older ++ recent) ->
         List.length recent = 10 ->
         history fs = Some ("Command History:" :: history_lines 1 recent)
         /\ List.length (history_lines 1 recent) = 30).
Proof.
  unfold history. repeat apply conj.
  - now intros ->.
  - now intros ->.
  - intros l -> Hne Hl. rewrite last_n_all by exact Hl.
    destruct l; [contradiction | reflexivity].
  - intros older recent -> Hl. split.
    + destruct (older ++ recent) as [|e l] eqn:E.
      * apply (f_equal (@List.length _)) in E. rewrite List.length_app in E.
        cbn in E. lia.
      * rewrite <- E. pose proof (last_n_exact older recent) as Hr.
        rewrite Hl in Hr. now rewrite Hr.
    + rewrite length_history_lines, Hl. reflexivity.
Qed.

(** X3: the entry that [save_history] has just stored is the last one
    that [history] prints, whatever was in the history before. *)
Theorem saved_entry_is_shown_last fs (d c : string) (now : Time) fs' :
  save_history d c now fs = Some fs' ->
  exists shown k,
    history fs'
    = Some (shown ++ [(str_of_Z (Z.of_nat k) ++ ". " ++ dq ++ d ++ dq)%string;
                      ("   " ++ c)%string;
                      EmptyString])
    /\ 1 <= k <= 10.
Proof.
  unfold save_history. destruct (history_file fs) as [l |] eqn:Hf;
    [| discriminate].
  intros [= <-]. unfold history. cbn [history_file].
  rewrite appended_eq.
  destruct (last_n 99 l ++ _) as [|e rest] eqn:E;
    [now destruct (last_n 99 l) |].
  rewrite <- E. change 10 with (S 9). rewrite last_n_snoc, history_lines_app.
  cbn [history_lines description command].
  eexists (_ :: _), _. split; [reflexivity |].
  rewrite length_last_n. lia.
Qed.

(** X4: [ensure_config_exists] creates what is missing and nothing else:
    a file that exists keeps its content, a missing configuration becomes
    the default one, a missing history the empty one, and a second call
    changes nothing.  After it, neither [save_history] nor [history] meets
    a missing file, and [load_config], which calls it first, always has a
    configuration to return. *)
Theorem ensure_config_exists_creates_once fs :
  ensure_config_exists (ensure_config_exists fs) = ensure_config_exists fs
  /\ (forall c, config_file fs = Some c ->
                config_file (ensure_config_exists fs) = Some c)
  /\ (forall l, history_file fs = Some l ->
                history_file (ensure_config_exists fs) = Some l)
  /\ (config_file fs = None ->
      config_file (ensure_config_exists fs) = Some DEFAULT_CONFIG)
  /\ (history_file fs = None ->
      history_file (ensure_config_exists fs) = Some [])
  /\ (forall d c now, save_history d c now (ensure_config_exists fs) <> None)
  /\ history (ensure_config_exists fs) <> None
  /\ (exists c, snd (load_config fs) = Some c).
Proof.
  unfold load_config, ensure_config_exists, save_history, history.
  destruct fs as [[cfg |] [l |]]; cbn;
    repeat apply conj; intros; try congruence; try discriminate;
    try (eexists; reflexivity); destruct l; discriminate.
Qed.

Lemma load_config_reads_or_defaults fs :
  load_config fs
  = (ensure_config_exists fs,
     Some match config_file fs with
          | Some c => c
          | None => DEFAULT_CONFIG
          end)
  /\ complete DEFAULT_CONFIG.
Proof.
  split.
  - unfold load_config, ensure_config_exists. cbv zeta. cbn [config_file].
    now destruct (config_file fs).
  - repeat split; discriminate.
Qed.

(** X5: the [config] subcommand never fails and never touches the history.
    Declined, it leaves the files as [ensure_config_exists] does.
    Accepted, it stores a configuration in which no key is missing, where
    every key the user left at its default keeps the value the program
    was using for it. *)
Theorem config_writes_complete (typed : Answers) fs :
  exists fs',
    config typed fs = Some fs'
    /\ history_file fs' = history_file (ensure_config_exists fs)
    /\ (update typed = false -> fs' = ensure_config_exists fs)
    /\ (update typed = true ->
        exists stored,
          config_file fs' = Some stored
          /\ complete stored
          /\ (typed_model_path typed = None ->
              forall current, config_file (ensure_config_exists fs)
                              = Some current ->
              get (model_path stored) MODEL_PATH
              = get (model_path current) MODEL_PATH)
          /\ (typed_server_host typed = None ->
              forall current, config_file (ensure_config_exists fs)
                              = Some current ->
              api_host stored = api_host current)
          /\ (typed_server_port typed = None ->
              forall current, config_file (ensure_config_exists fs)
                              = Some current ->
              api_port stored = api_port current)).
Proof.
  unfold config. destruct (load_config_reads_or_defaults fs) as [-> _].
  destruct (update typed) eqn:U.
  - eexists. split; [reflexivity |]. split; [reflexivity |].
    split; [discriminate |]. intros _.
    eexists. split; [reflexivity |].
    split; [repeat split; discriminate |].
    unfold ensure_config_exists. cbn [config_file].
    repeat split; intros Ht current Hc; unfold new_config, api_host, api_port;
      cbn [model_path server_host server_port get]; rewrite Ht;
      destruct (config_file fs); injection Hc as <-; reflexivity.
  - eexists. split; [reflexivity |]. split; [reflexivity |].
    split; [reflexivity | discriminate].
Qed.

End Display.

Section Replay.

Context {Time : Type}.

Lemma replay_length (clock : nat -> Time) (n : nat) (trace : list event)
      (entries : list (HistoryEntry Time)) :
  List.length entries <= 100 ->
  List.length (replay clock n trace entries)
  = Nat.min (List.length entries + count is_save trace) 100.
Proof.
  revert n entries. induction trace as [|e trace IH]; intros n entries H.
  - cbn. unfold count. cbn. lia.
  - assert (Hs : forall l, count is_save (e :: l)
                           = (if is_save e then 1 else 0) + count is_save l)
      by (intros l; unfold count; cbn [filter]; now destruct (is_save e)).
    rewrite Hs.
    destruct e; cbn [replay is_save]; try (rewrite IH by lia; lia).
    rewrite IH.
    + rewrite appended_eq, List.length_app, length_last_n.
      cbn [List.length]. lia.
    + rewrite appended_eq, List.length_app, length_last_n.
      cbn [List.length]. lia.
Qed.

Lemma replay_untouched (clock : nat -> Time) (n : nat) (trace : list event)
      (entries : list (HistoryEntry Time)) :
  count is_save trace = 0 -> replay clock n trace entries = entries.
Proof.
  revert n. induction trace as [|e trace IH]; intros n H; [reflexivity |].
  assert (Hs : count is_save (e :: trace)
               = (if is_save e then 1 else 0) + count is_save trace)
    by (unfold count; cbn [filter]; now destruct (is_save e)).
  rewrite Hs in H.
  destruct e; cbn [replay is_save] in *; try (apply IH; lia). lia.
Qed.

(** X6: whatever a run of the program does, the history stays within its
    bound.  Replaying the [SaveHistory] events of any trace on a history
    of 100 entries at most gives one entry more for each of them, up to
    100; a run of [generate] adds one entry at most, and runs of [fix] and
    [explain] leave the history as it was. *)
Theorem replay_stays_capped (clock : nat -> Time) (n : nat)
        (entries : list (HistoryEntry Time)) :
  (forall trace,
      List.length entries <= 100 ->
      List.length (replay clock n trace entries)
      = Nat.min (List.length entries + count is_save trace) 100)
  /\ (forall W description execute h,
         List.length entries <= 100 ->
         List.length (replay clock n
                        (events (generate W description execute) h) entries)
         <= Nat.min (S (List.length entries)) 100)
  /\ (forall W words h,
         replay clock n (events (fix_cmd W words) h) entries = entries
         /\ replay clock n (events (explain W words) h) entries = entries).
Proof.
  split; [| split].
  - intros trace H. now apply replay_length.
  - intros W d x h H. rewrite replay_length by exact H.
    pose proof (generate_saves_once W d x h). lia.
  - intros W words h. split; apply replay_untouched.
    + pose proof (fix_cmd_saves_nothing W words 0 h). lia.
    + pose proof (explain_saves_nothing W words 0 h). lia.
Qed.

End Replay.

Lemma history_shows_last_ten_witness :
  history no_files = None
  /\ history empty_history_files = Some ["No command history found."]
  /\ history sample_files
     = Some ("Command History:" :: history_lines 1 [pwd_entry])
  /\ history {| config_file := None;
                history_file := Some ([pwd_entry] ++ repeat pwd_entry 10) |}
     = Some ("Command History:" :: history_lines 1 (repeat pwd_entry 10)).
Proof.
  split; [| split; [| split]].
  - now apply (proj1 (history_shows_last_ten no_files)).
  - now apply (proj1 (proj2 (history_shows_last_ten empty_history_files))).
  - apply (proj1 (proj2 (proj2 (history_shows_last_ten sample_files)))
             [pwd_entry]); [reflexivity | discriminate | cbn; lia].
  - apply (proj2 (proj2 (proj2 (history_shows_last_ten
             {| config_file := None;
                history_file := Some ([pwd_entry] ++ repeat pwd_entry 10) |})))
             [pwd_entry] (repeat pwd_entry 10)); reflexivity.
Defined.

Lemma saved_entry_is_shown_last_witness :
  exists shown k,
    history {| config_file := None;
               history_file :=
                 Some (appended [pwd_entry] "list files" "ls" 7) |}
    = Some (shown ++ [(str_of_Z (Z.of_nat k) ++ ". " ++ dq ++ "list files"
                       ++ dq)%string;
                      ("   " ++ "ls")%string;
                      EmptyString])
    /\ 1 <= k <= 10.
Proof.
  apply (saved_entry_is_shown_last sample_files "list files" "ls" 7).
  reflexivity.
Defined.

Lemma ensure_config_exists_creates_once_witness :
  config_file (ensure_config_exists no_files) = Some DEFAULT_CONFIG
  /\ history_file (ensure_config_exists no_files) = Some []
  /\ history_file (ensure_config_exists sample_files) = Some [pwd_entry].
Proof.
  split; [| split].
  - now apply (proj1 (proj2 (proj2 (proj2
                 (ensure_config_exists_creates_once no_files))))).
  - now apply (proj1 (proj2 (proj2 (proj2 (proj2
                 (ensure_config_exists_creates_once no_files)))))).
  - now apply (proj1 (proj2 (proj2
                 (ensure_config_exists_creates_once sample_files)))).
Defined.

Lemma config_writes_complete_witness :
  exists fs',
    config (all_defaults true) sample_files = Some fs'
    /\ history_file fs' = history_file (ensure_config_exists sample_files)
    /\ exists stored,
         config_file fs' = Some stored /\ complete stored
         /\ api_host stored = api_host DEFAULT_CONFIG
         /\ api_port stored = api_port DEFAULT_CONFIG.
Proof.
  destruct (config_writes_complete (all_defaults true) sample_files)
    as (fs' & E & Hh & _ & Hu).
  destruct (Hu eq_refl) as (stored & Hs & Hc & _ & Hhost & Hport).
  exists fs'. split; [exact E |]. split; [exact Hh |].
  exists stored. split; [exact Hs |]. split; [exact Hc |]. split.
  - now apply Hhost.
  - now apply Hport.
Defined.

Lemma replay_stays_capped_witness :
  List.length (replay (fun n => n) 0
                      [Echo "Generating command..."; SaveHistory "list" "ls"]
                      [pwd_entry])
  = Nat.min (List.length [pwd_entry]
             + count is_save [Echo "Generating command...";
                              SaveHistory "list" "ls"]) 100.
Proof.
  apply (proj1 (replay_stays_capped (fun n => n) 0 [pwd_entry])).
  cbn. lia.
Defined.

End StoreFacts.
